(** * League aggregator of fantasy-analytics: a shallow embedding of
    [src/league.py] and the properties of its fetch / reshape pipeline.

    The Python code works on parsed JSON and on dictionaries it builds
    itself, so the embedding keeps the data dynamic: one type [value] of
    Python objects, dictionaries as insertion-ordered association lists, and
    every operation that can raise returns a [result].  Numbers are
    integers (the provider's floating-point values are outside the model). *)

From Stdlib Require Import ZArith List String Ascii Bool Lia DecimalString.
From Stdlib Require DecimalZ DecimalPos.
Import ListNotations.

Set Warnings "-register-all".

Open Scope string_scope.
Open Scope list_scope.
Open Scope Z_scope.

(** ** Python objects *)

(** Hashable scalars, used as dictionary keys. *)
Inductive key : Type :=
| KNone
| KInt (z : Z)
| KStr (s : string).

Inductive value : Type :=
| VNone
| VMissing                       (* the accessor's absence marker *)
| VBool (b : bool)
| VInt (z : Z)
| VStr (s : string)
| VList (l : list value)
| VTuple (l : list value)
| VDict (d : list (key * value)).

Definition dict := list (key * value).

(** The exceptions the pipeline can raise. *)
Inductive exn : Type :=
| ValueError (msg : string)
| HttpError (code : Z)
| KeyError (k : key)
| IndexError
| TypeError
| AttributeError
| JSONDecodeError.

Inductive result (A : Type) : Type :=
| Ok (a : A)
| Err (e : exn).

Arguments Ok {A} a.
Arguments Err {A} e.

Definition rbind {A B} (r : result A) (f : A -> result B) : result B :=
  match r with
  | Ok a => f a
  | Err e => Err e
  end.

Declare Scope result_scope.
Delimit Scope result_scope with result.
Notation "x <- r ;; k" := (rbind r (fun x => k))
  (at level 61, r at next level, right associativity) : result_scope.

Definition key_eqb (a b : key) : bool :=
  match a, b with
  | KNone, KNone => true
  | KInt x, KInt y => Z.eqb x y
  | KStr x, KStr y => String.eqb x y
  | _, _ => false
  end.

(** [d.get(k)] on the association list: the first binding of [k]. *)
Fixpoint dict_get (d : dict) (k : key) : option value :=
  match d with
  | [] => None
  | (k', v) :: d' => if key_eqb k' k then Some v else dict_get d' k
  end.

(** [d[k] = v]: overwrite in place, or append a new binding. *)
Fixpoint dict_set (d : dict) (k : key) (v : value) : dict :=
  match d with
  | [] => [(k, v)]
  | (k', v') :: d' =>
      if key_eqb k' k then (k', v) :: d' else (k', v') :: dict_set d' k v
  end.

(** [dict(pairs)]: insert the pairs from left to right. *)
Definition dict_of_pairs (ps : list (key * value)) : dict :=
  fold_left (fun d kv => dict_set d (fst kv) (snd kv)) ps [].

(** [hash(v)] succeeds on scalars; [True] and [1] are the same key. *)
Definition key_of_value (v : value) : result key :=
  match v with
  | VNone => Ok KNone
  | VBool b => Ok (KInt (Z.b2z b))
  | VInt z => Ok (KInt z)
  | VStr s => Ok (KStr s)
  | _ => Err TypeError
  end.

Definition value_of_key (k : key) : value :=
  match k with
  | KNone => VNone
  | KInt z => VInt z
  | KStr s => VStr s
  end.

(** Truth value of an object, as [not x] and [if x] use it. *)
Definition truthy (v : value) : bool :=
  match v with
  | VNone => false
  | VMissing => true
  | VBool b => b
  | VInt z => negb (Z.eqb z 0)
  | VStr s => negb (String.eqb s "")
  | VList l | VTuple l => match l with [] => false | _ => true end
  | VDict d => match d with [] => false | _ => true end
  end.

(** [a == b]. Booleans compare as the integers 0 and 1, sequences
    element-wise, dictionaries regardless of insertion order. *)
Fixpoint py_eq (a b : value) {struct a} : bool :=
  match a, b with
  | VNone, VNone => true
  | VMissing, VMissing => true
  | VBool x, VBool y => Bool.eqb x y
  | VBool x, VInt y => Z.eqb (Z.b2z x) y
  | VInt x, VBool y => Z.eqb x (Z.b2z y)
  | VInt x, VInt y => Z.eqb x y
  | VStr x, VStr y => String.eqb x y
  | VList xs, VList ys | VTuple xs, VTuple ys =>
      (fix go (xs ys : list value) {struct xs} : bool :=
         match xs, ys with
         | [], [] => true
         | x :: xs', y :: ys' => py_eq x y && go xs' ys'
         | _, _ => false
         end) xs ys
  | VDict xs, VDict ys =>
      (Nat.eqb (List.length xs) (List.length ys)) &&
      (fix go (xs : list (key * value)) {struct xs} : bool :=
         match xs with
         | [] => true
         | (k, v) :: xs' =>
             match dict_get ys k with
             | Some v' => py_eq v v'
             | None => false
             end && go xs'
         end) xs
  | _, _ => false
  end.

(** [l[i]] on a sequence: negative indices count from the end. *)
Definition py_index {A} (l : list A) (i : Z) : result A :=
  let n := Z.of_nat (List.length l) in
  let j := if i <? 0 then i + n else i in
  if (0 <=? j) && (j <? n)
  then match nth_error l (Z.to_nat j) with
       | Some x => Ok x
       | None => Err IndexError
       end
  else Err IndexError.

Fixpoint chars (s : string) : list value :=
  match s with
  | EmptyString => []
  | String c s' => VStr (String c EmptyString) :: chars s'
  end.

Definition int_index (i : value) : result Z :=
  match i with
  | VInt z => Ok z
  | VBool b => Ok (Z.b2z b)
  | _ => Err TypeError
  end.

(** [v[i]]: subscription. *)
Definition getitem (v i : value) : result value :=
  match v with
  | VDict d =>
      (k <- key_of_value i ;;
       match dict_get d k with
       | Some x => Ok x
       | None => Err (KeyError k)
       end)%result
  | VList l | VTuple l => (z <- int_index i ;; py_index l z)%result
  | VStr s => (z <- int_index i ;; py_index (chars s) z)%result
  | _ => Err TypeError
  end.

(** [v.get(k)]: only dictionaries have the method. *)
Definition method_get (v : value) (k : value) : result value :=
  match v with
  | VDict d =>
      (k' <- key_of_value k ;;
       Ok match dict_get d k' with
          | Some x => x
          | None => VNone
          end)%result
  | _ => Err AttributeError
  end.

(** [v.items()]. *)
Definition method_items (v : value) : result (list (key * value)) :=
  match v with
  | VDict d => Ok d
  | _ => Err AttributeError
  end.

(** [for x in v]: the elements the loop visits. *)
Definition py_iter (v : value) : result (list value) :=
  match v with
  | VList l | VTuple l => Ok l
  | VDict d => Ok (map (fun kv => value_of_key (fst kv)) d)
  | VStr s => Ok (chars s)
  | _ => Err TypeError
  end.

(** Whitespace that [str.strip()] removes (ASCII part). *)
Definition is_space (c : ascii) : bool :=
  let n := nat_of_ascii c in
  (Nat.eqb n 32) || ((Nat.leb 9 n) && (Nat.leb n 13))
  || ((Nat.leb 28 n) && (Nat.leb n 31)).

Fixpoint lstrip (s : string) : string :=
  match s with
  | EmptyString => EmptyString
  | String c s' => if is_space c then lstrip s' else s
  end.

Fixpoint rstrip (s : string) : string :=
  match s with
  | EmptyString => EmptyString
  | String c s' =>
      match rstrip s' with
      | EmptyString => if is_space c then EmptyString else String c EmptyString
      | r => String c r
      end
  end.

Definition method_strip (v : value) : result value :=
  match v with
  | VStr s => Ok (VStr (rstrip (lstrip s)))
  | _ => Err AttributeError
  end.

(** Run a fallible body over the elements of a list, left to right,
    stopping at the first exception. *)
Fixpoint mapM {A B} (f : A -> result B) (l : list A) : result (list B) :=
  match l with
  | [] => Ok []
  | x :: l' => (y <- f x ;; ys <- mapM f l' ;; Ok (y :: ys))%result
  end.

(** [str(n)] for an integer, as f-strings print it. *)
Definition str_of_Z (z : Z) : string := NilZero.string_of_int (Z.to_int z).

(** ** Helpers imported by [league.py] whose source is not part of it *)

(** Modelled from the spec: [request_status] of [utils/http_util.py] is
    missing. Status Validator: "given an HTTP status code, succeeds silently
    for 2xx; fails with an HttpError (carrying the code) for all other
    codes". *)
Definition request_status (status_code : Z) : result unit :=
  if (200 <=? status_code) && (status_code <=? 299)
  then Ok tt
  else Err (HttpError status_code).

(** [path.split('.')]. *)
Fixpoint split_dots (s : string) : list string :=
  match s with
  | EmptyString => [EmptyString]
  | String c s' =>
      if Ascii.eqb c "."
      then EmptyString :: split_dots s'
      else match split_dots s' with
           | h :: t => String c h :: t
           | [] => [String c EmptyString]
           end
  end.

(** Modelled from the spec: [get_nested] of [utils/json_util.py] is
    missing. Nested Field Accessor: "walks the path segment by segment. If
    any segment is absent or the current value is not a mapping, returns a
    defined missing sentinel rather than failing". [walk] is the descent,
    [None] standing for the sentinel until the end. *)
Fixpoint walk (segs : list string) (cur : value) : option value :=
  match segs with
  | [] => Some cur
  | k :: rest =>
      match cur with
      | VDict d =>
          match dict_get d (KStr k) with
          | Some v => walk rest v
          | None => None
          end
      | _ => None
      end
  end.

Definition get_nested (m : value) (path : string) : value :=
  match walk (split_dots path) m with
  | Some v => v
  | None => VMissing
  end.

(** Modelled from the spec: [_cast_none] of [utils/object_util.py] is
    missing. "stat fields coerced through absence->zero": [None] becomes
    [0], every other object is returned as it is. *)
Definition _cast_none (x : value) : value :=
  match x with
  | VNone => VInt 0
  | _ => x
  end.

(** ** The HTTP transport and the League object *)

Record request : Type := mkRequest {
  url : string;
  params : list (string * value);
  req_cookies : value
}.

(** What [requests.get] returns: the status and the outcome of
    [resp.json()]. *)
Record response : Type := mkResponse {
  status_code : Z;
  json : result value
}.

(** The instance attributes. [__init__] sets the first five; [rosters] and
    [roster_stats] are read by the methods but assigned by callers, so they
    can be unset. *)
Record League : Type := mkLeague {
  cookies : value;
  league_id : Z;
  year : Z;
  team_id : Z;
  meta : option value;
  rosters : option value;
  roster_stats : option value
}.

Definition set_meta (o : League) (m : value) : League :=
  mkLeague (cookies o) (league_id o) (year o) (team_id o) (Some m)
           (rosters o) (roster_stats o).

(** The state a method runs in: the object and the requests issued so
    far. *)
Record state : Type := mkState {
  self : League;
  sent : list request
}.

Definition M (A : Type) : Type := state -> result A * state.

Definition ret {A} (a : A) : M A := fun st => (Ok a, st).

Definition raise {A} (e : exn) : M A := fun st => (Err e, st).

Definition bind {A B} (m : M A) (f : A -> M B) : M B :=
  fun st =>
    match m st with
    | (Ok a, st') => f a st'
    | (Err e, st') => (Err e, st')
    end.

Definition lift {A} (r : result A) : M A := fun st => (r, st).

Definition get_self : M League := fun st => (Ok (self st), st).

(** Reading an attribute that was never assigned raises. *)
Definition attr {A} (o : option A) : M A :=
  match o with
  | Some a => ret a
  | None => raise AttributeError
  end.

Declare Scope M_scope.
Delimit Scope M_scope with M.
Notation "x <- m ;; k" := (bind m (fun x => k))
  (at level 61, m at next level, right associativity) : M_scope.

Fixpoint mapM_M {A B} (f : A -> M B) (l : list A) : M (list B) :=
  match l with
  | [] => ret []
  | x :: l' => (y <- f x ;; ys <- mapM_M f l' ;; ret (y :: ys))%M
  end.

(** A loop whose body appends some elements to one output list. *)
Definition appending_loop {A B} (body : A -> M (list B)) (l : list A)
    : M (list B) :=
  (rs <- mapM_M body l ;; ret (List.concat rs))%M.

(** ** The class [League] *)

Section LeagueClass.

(** [FBA_ENDPOINT] and [STATS_INT_TO_STRING] come from [constants.py], which
    is not part of the source at hand: they are parameters. *)
Variable FBA_ENDPOINT : string.
Variable STATS_INT_TO_STRING : list (key * string).

(** The HTTP transport behind [requests.get]: the response may depend on the
    requests issued before. *)
Variable transport : list request -> request -> response.

(** [self._fetch_teams()] is called by [_fetch_stats] but defined nowhere in
    [league.py]; it is a parameter: any computation over the object and the
    transport that returns the team payload or raises. *)
Variable _fetch_teams : M value.

(** The [logger] calls do not change any result and are left out. *)

Definition requests_get (u : string) (ps : list (string * value))
    (ck : value) : M response :=
  fun st =>
    let rq := mkRequest u ps ck in
    (Ok (transport (sent st) rq), mkState (self st) (sent st ++ [rq])).

(** f'{FBA_ENDPOINT}{self.year}/segments/0/leagues/{self.league_id}' *)
Definition league_url (o : League) : string :=
  (FBA_ENDPOINT ++ str_of_Z (year o) ++ "/segments/0/leagues/"
   ++ str_of_Z (league_id o))%string.

(** The two list comprehensions and the dictionary display of
    [_fetch_league_meta], evaluated in source order. *)
Definition member_entry (x : value) : result value :=
  (i <- getitem x (VStr "id") ;;
   n <- getitem x (VStr "displayName") ;;
   Ok (VDict [(KStr "id", i); (KStr "name", n)]))%result.

Definition team_entry (x : value) : result value :=
  (i <- getitem x (VStr "id") ;;
   os <- getitem x (VStr "owners") ;;
   o <- getitem os (VInt 0) ;;
   n <- getitem x (VStr "nickname") ;;
   Ok (VDict [(KStr "id", i); (KStr "owner", o); (KStr "name", n)]))%result.

Definition league_meta_of (data : value) : result value :=
  (dm <- getitem data (VStr "members") ;;
   ms <- py_iter dm ;;
   members <- mapM member_entry ms ;;
   dt <- getitem data (VStr "teams") ;;
   ts <- py_iter dt ;;
   teams <- mapM team_entry ts ;;
   st <- getitem data (VStr "status") ;;
   cw <- getitem st (VStr "currentMatchupPeriod") ;;
   st' <- getitem data (VStr "status") ;;
   nd <- getitem st' (VStr "latestScoringPeriod") ;;
   Ok (VDict [(KStr "current_week", cw);
              (KStr "nba_day", nd);
              (KStr "members", VList members);
              (KStr "teams", VList teams)]))%result.

Definition _fetch_league_meta : M value :=
  (o <- get_self ;;
   resp <- requests_get (league_url o) [] (cookies o) ;;
   _ <- lift (request_status (status_code resp)) ;;
   data <- lift (json resp) ;;
   lift (league_meta_of data))%M.

(** [League(league_id, year, team_id, cookies)]: the constructor, run after
    the requests [sent0]; it returns the new object or the exception, and the
    requests issued up to then. The [debug] flag is never read. *)
Definition __init__ (league_id year team_id : Z) (cookies : value)
    (sent0 : list request) : result League * list request :=
  if negb (truthy cookies)
  then (Err (ValueError "No Authorization Credentials"), sent0)
  else
    let o := mkLeague cookies league_id year team_id None None None in
    match _fetch_league_meta (mkState o sent0) with
    | (Ok m, st) => (Ok (set_meta (self st) m), sent st)
    | (Err e, st) => (Err e, sent st)
    end.

(** The dictionary display [team_meta] of [_fetch_team_meta]. *)
Definition team_meta_of (team_id : Z) (my_team : value) : result value :=
  (abbrev <- getitem my_team (VStr "abbrev") ;;
   owner <- getitem my_team (VStr "primaryOwner") ;;
   name <- getitem my_team (VStr "nickname") ;;
   r1 <- getitem my_team (VStr "record") ;;
   o1 <- getitem r1 (VStr "overall") ;;
   wins <- getitem o1 (VStr "wins") ;;
   r2 <- getitem my_team (VStr "record") ;;
   o2 <- getitem r2 (VStr "overall") ;;
   losses <- getitem o2 (VStr "losses") ;;
   r3 <- getitem my_team (VStr "record") ;;
   o3 <- getitem r3 (VStr "overall") ;;
   ties <- getitem o3 (VStr "ties") ;;
   stats <- getitem my_team (VStr "valuesByStat") ;;
   Ok (VDict [(KStr "id", VInt team_id);
              (KStr "abbrev", abbrev);
              (KStr "owner", owner);
              (KStr "name", name);
              (KStr "record", VTuple [wins; losses; ties]);
              (KStr "stats", stats)]))%result.

Definition _fetch_team_meta (team_id_arg : option Z) : M value :=
  (o <- get_self ;;
   let tid := match team_id_arg with
              | Some t => t
              | None => team_id o
              end in
   resp <- requests_get (league_url o) [("view", VStr "mTeam")] (cookies o) ;;
   _ <- lift (request_status (status_code resp)) ;;
   data <- lift (json resp) ;;
   teams <- lift (getitem data (VStr "teams")) ;;
   (* fantasy team ids start at 1 not 0 *)
   my_team <- lift (getitem teams (VInt (tid - 1))) ;;
   lift (team_meta_of tid my_team))%M.

(** One pair appended to a team's roster list. *)
Definition roster_pair (player : value) : result value :=
  (pid <- getitem player (VStr "playerId") ;;
   ppe <- getitem player (VStr "playerPoolEntry") ;;
   pl <- getitem ppe (VStr "player") ;;
   fn <- getitem pl (VStr "fullName") ;;
   Ok (VTuple [pid; fn]))%result.

(** The loop body of [_fetch_rosters]: [rosters[team['id']]] is set to the
    empty list and then filled, one pair per roster entry. *)
Definition add_roster (rosters : dict) (team : value) : result dict :=
  (tid <- getitem team (VStr "id") ;;
   k <- key_of_value tid ;;
   r <- getitem team (VStr "roster") ;;
   es <- getitem r (VStr "entries") ;;
   ps <- py_iter es ;;
   pairs <- mapM roster_pair ps ;;
   Ok (dict_set rosters k (VList pairs)))%result.

Fixpoint foldM {A B} (f : B -> A -> result B) (l : list A) (b : B)
    : result B :=
  match l with
  | [] => Ok b
  | x :: l' => (b' <- f b x ;; foldM f l' b')%result
  end.

Definition _fetch_rosters (team_id_arg : option Z) : M value :=
  (o <- get_self ;;
   m <- attr (meta o) ;;
   cw <- lift (getitem m (VStr "current_week")) ;;
   resp <- requests_get (league_url o)
             [("view", VStr "mRoster"); ("scoringPeriod", cw)] (cookies o) ;;
   _ <- lift (request_status (status_code resp)) ;;
   data <- lift (json resp) ;;
   dt <- lift (getitem data (VStr "teams")) ;;
   ts <- lift (py_iter dt) ;;
   rosters <- lift (foldM add_roster ts []) ;;
   ret (VDict rosters))%M.

(** [STATS_INT_TO_STRING[k]], defined when [k in STATS_INT_TO_STRING.keys()]. *)
Fixpoint stat_name_in (tbl : list (key * string)) (k : key) : option string :=
  match tbl with
  | [] => None
  | (k', n) :: tbl' => if key_eqb k' k then Some n else stat_name_in tbl' k
  end.

Definition stat_name (k : key) : option string :=
  stat_name_in STATS_INT_TO_STRING k.

(** The generator [(STATS_INT_TO_STRING[k], v) for (k, v) in
    season_totals.items() if k in STATS_INT_TO_STRING.keys()]. *)
Fixpoint renamed_pairs (items : list (key * value)) : list (key * value) :=
  match items with
  | [] => []
  | (k, v) :: items' =>
      match stat_name k with
      | Some n => (KStr n, v) :: renamed_pairs items'
      | None => renamed_pairs items'
      end
  end.

Definition relevant_items (season_totals : list (key * value)) : dict :=
  dict_of_pairs (renamed_pairs season_totals).

(** [relevant_items.get(name)] *)
Definition items_get (d : dict) (name : string) : value :=
  match dict_get d (KStr name) with
  | Some x => x
  | None => VNone
  end.

(** The dictionary display [player_metadata]. *)
Definition player_metadata (team_name player : value) (rel : dict) : value :=
  VDict [(KStr "teamId", team_name);
         (KStr "name", get_nested player "playerPoolEntry.player.fullName");
         (KStr "id", get_nested player "playerPoolEntry.player.id");
         (KStr "stats",
          VDict [(KStr "points", _cast_none (items_get rel "points"));
                 (KStr "blocks", _cast_none (items_get rel "blocks"));
                 (KStr "steals", _cast_none (items_get rel "steals"));
                 (KStr "assists", _cast_none (items_get rel "assists"));
                 (KStr "rebounds", _cast_none (items_get rel "rebounds"))])].

(** [[x['nickname'] for x in teams['teams'] if x['id'] == idx]] *)
Fixpoint nicknames (idx : value) (xs : list value) : result (list value) :=
  match xs with
  | [] => Ok []
  | x :: xs' =>
      (i <- getitem x (VStr "id") ;;
       if py_eq i idx
       then (n <- getitem x (VStr "nickname") ;;
             ns <- nicknames idx xs' ;;
             Ok (n :: ns))
       else nicknames idx xs')%result
  end.

Definition team_name_of (teams idx : value) : result value :=
  (tl <- getitem teams (VStr "teams") ;;
   xs <- py_iter tl ;;
   ns <- nicknames idx xs ;;
   n0 <- py_index ns 0 ;;
   method_strip n0)%result.

(** The body of [for statline in stats]: the records it appends to
    [team_stats], none unless the statline is the season total. *)
Definition statline_records (roster player statline : value)
    : M (list value) :=
  (t <- lift (method_get statline (VStr "statSplitTypeId")) ;;
   if py_eq t (VInt 2)
   then
     (season_totals <- lift (method_get statline (VStr "stats")) ;;
      items <- lift (method_items season_totals) ;;
      let rel := relevant_items items in
      teams <- _fetch_teams ;;
      idx <- lift (method_get roster (VStr "id")) ;;
      team_name <- lift (team_name_of teams idx) ;;
      ret [player_metadata team_name player rel])
   else ret [])%M.

(** The loop [for statline in stats] of one player. *)
Definition stats_records (roster player : value) (sl : list value)
    : M (list value) :=
  appending_loop (statline_records roster player) sl.

(** The body of [for player in entries]. *)
Definition player_records (roster player : value) : M (list value) :=
  (let stats := get_nested player "playerPoolEntry.player.stats" in
   sl <- lift (py_iter stats) ;;
   stats_records roster player sl)%M.

(** The loop [for player in entries] of one team. *)
Definition entries_records (roster : value) (ps : list value)
    : M (list value) :=
  appending_loop (player_records roster) ps.

(** The body of [for roster in rosters]: the finished [team_stats]. *)
Definition team_stats_of (roster : value) : M (list value) :=
  (r <- lift (getitem roster (VStr "roster")) ;;
   entries <- lift (method_get r (VStr "entries")) ;;
   ps <- lift (py_iter entries) ;;
   entries_records roster ps)%M.

Definition _fetch_stats : M (list (list value)) :=
  (o <- get_self ;;
   rosters <- attr (rosters o) ;;
   rl <- lift (py_iter rosters) ;;
   mapM_M team_stats_of rl)%M.

(** [acc + v] inside [sum]: integers (and booleans) add, anything else is a
    [TypeError]. *)
Definition py_add (acc : Z) (v : value) : result Z :=
  match v with
  | VInt z => Ok (acc + z)
  | VBool b => Ok (acc + Z.b2z b)
  | _ => Err TypeError
  end.

(** [sum(d['stats'].get(field) for d in roster)]: the generator is consumed
    element by element, each value added as soon as it is produced. *)
Fixpoint sum_field_from (field : string) (acc : Z) (ds : list value)
    : result Z :=
  match ds with
  | [] => Ok acc
  | d :: ds' =>
      (st <- getitem d (VStr "stats") ;;
       v <- method_get st (VStr field) ;;
       acc' <- py_add acc v ;;
       sum_field_from field acc' ds')%result
  end.

Definition sum_field (field : string) (roster : value) : result Z :=
  (ds <- py_iter roster ;; sum_field_from field 0 ds)%result.

(** The dictionary display [stat_totals] for one team. *)
Definition stat_totals_of (roster : value) : result value :=
  (first <- getitem roster (VInt 0) ;;
   tid <- method_get first (VStr "teamId") ;;
   points <- sum_field "points" roster ;;
   blocks <- sum_field "blocks" roster ;;
   steals <- sum_field "steals" roster ;;
   assists <- sum_field "assists" roster ;;
   rebounds <- sum_field "rebounds" roster ;;
   Ok (VDict [(KStr "teamId", tid);
              (KStr "points", VInt points);
              (KStr "blocks", VInt blocks);
              (KStr "steals", VInt steals);
              (KStr "assists", VInt assists);
              (KStr "rebounds", VInt rebounds)]))%result.

(** [[x for x in team_totals if x.get('teamId') == team_id]] *)
Fixpoint totals_matching (team_id : value) (xs : list value)
    : result (list value) :=
  match xs with
  | [] => Ok []
  | x :: xs' =>
      (t <- method_get x (VStr "teamId") ;;
       rest <- totals_matching team_id xs' ;;
       Ok (if py_eq t team_id then x :: rest else rest))%result
  end.

Definition calculate_totals_of (roster_stats team_id : value)
    : result value :=
  (rl <- py_iter roster_stats ;;
   team_totals <- mapM stat_totals_of rl ;;
   if negb (truthy team_id)
   then Ok (VList team_totals)
   else (team_id_totals <- totals_matching team_id team_totals ;;
         Ok (VList team_id_totals)))%result.

(** [_calculate_totals(team_id=None)]: [VNone] is the default argument. *)
Definition _calculate_totals (team_id_arg : value) : M value :=
  (o <- get_self ;;
   roster_stats <- attr (roster_stats o) ;;
   lift (calculate_totals_of roster_stats team_id_arg))%M.

End LeagueClass.

Arguments stat_name STATS_INT_TO_STRING k /.

(** ** Vocabulary of the specification *)

(** The specification's [AuthError] is the [ValueError] the constructor
    raises. *)
Definition AuthError : exn := ValueError "No Authorization Credentials".

Definition is_2xx (code : Z) : Prop := 200 <= code <= 299.

(** [reaches m segs v]: following the keys [segs] from [m], through
    mappings only, ends at [v]. *)
Inductive reaches : value -> list string -> value -> Prop :=
| reaches_nil : forall v, reaches v [] v
| reaches_cons : forall d k v segs w,
    dict_get d (KStr k) = Some v ->
    reaches v segs w ->
    reaches (VDict d) (k :: segs) w.

(** The walk cannot take the step [k] from [cur]: [cur] is not a mapping,
    or it has no such key. *)
Definition stuck_at (cur : value) (k : string) : Prop :=
  match cur with
  | VDict d => dict_get d (KStr k) = None
  | _ => True
  end.

(** The five canonical stat fields. *)
Definition stat_fields : list string :=
  ["points"; "blocks"; "steals"; "assists"; "rebounds"].

(** [d['stats'].get(field)] as the totals computation reads it. *)
Definition stat_value (field : string) (d : value) : result value :=
  (st <- getitem d (VStr "stats") ;; method_get st (VStr field))%result.

(** The integer a record holds in a stat field (0 when it holds none). *)
Definition stat_of (field : string) (d : value) : Z :=
  match stat_value field d with
  | Ok (VInt z) => z
  | _ => 0
  end.

(** A player stat record: a dictionary whose ['stats'] entry holds an
    integer in each of the five fields. *)
Definition has_int (field : string) (d : value) : bool :=
  match stat_value field d with
  | Ok (VInt _) => true
  | _ => false
  end.

Definition is_dict (v : value) : bool :=
  match v with
  | VDict _ => true
  | _ => false
  end.

Definition stat_record (d : value) : bool :=
  is_dict d && forallb (fun f => has_int f d) stat_fields.

(** [d.get('teamId')] of a record. *)
Definition team_of (d : value) : value :=
  match method_get d (VStr "teamId") with
  | Ok t => t
  | Err _ => VNone
  end.

Definition Zsum (l : list Z) : Z := fold_right Z.add 0 l.

Definition field_total (field : string) (team : list value) : Z :=
  Zsum (map (stat_of field) team).

(** The totals record of one team: the identifier of its first record and
    the five sums. *)
Definition team_totals (team : list value) : value :=
  VDict [(KStr "teamId", team_of (hd VNone team));
         (KStr "points", VInt (field_total "points" team));
         (KStr "blocks", VInt (field_total "blocks" team));
         (KStr "steals", VInt (field_total "steals" team));
         (KStr "assists", VInt (field_total "assists" team));
         (KStr "rebounds", VInt (field_total "rebounds" team))].

(** A team's list as the totals computation needs it. *)
Definition team_ok (team : list value) : bool :=
  match team with
  | [] => false
  | _ => forallb stat_record team
  end.

Definition team_matches (team_id : value) (team : list value) : bool :=
  py_eq (team_of (hd VNone team)) team_id.

(** A statline is the season total when its split-type marker equals 2. *)
Definition is_season (statline : value) : bool :=
  match method_get statline (VStr "statSplitTypeId") with
  | Ok t => py_eq t (VInt 2)
  | Err _ => false
  end.

(** A stat field of the mapped items is an integer, or absent / null. *)
Definition int_or_absent (rel : dict) (field : string) : bool :=
  match items_get rel field with
  | VInt _ | VNone => true
  | _ => false
  end.

Definition rel_int (rel : dict) (field : string) : Z :=
  match items_get rel field with
  | VInt z => z
  | _ => 0
  end.

(** Every stat field of a record is present and holds an object other
    than [None]. *)
Definition stats_defined (d : value) : Prop :=
  forall f, In f stat_fields ->
    exists v, stat_value f d = Ok v /\ v <> VNone.

(** A record built by the extraction step. *)
Definition extracted (d : value) : Prop :=
  exists team_name player rel, d = player_metadata team_name player rel.

(** The record the extraction builds from a player and mapped items. *)
Definition record_of (x : value * value * dict) : value :=
  player_metadata (fst (fst x)) (snd (fst x)) (snd x).

(** The request the three fetches send. *)
Definition fetch_request (FBA_ENDPOINT : string) (o : League)
    (ps : list (string * value)) : request :=
  mkRequest (league_url FBA_ENDPOINT o) ps (cookies o).

(** The state after one more request. *)
Definition after_request (st : state) (rq : request) : state :=
  mkState (self st) (sent st ++ [rq]).

(** The static table gives different stat identifiers different names. *)
Definition stat_injective (tbl : list (key * string)) : Prop :=
  forall k1 k2 n,
    stat_name tbl k1 = Some n -> stat_name tbl k2 = Some n -> k1 = k2.

(** [team_id if team_id is not None else self.team_id] *)
Definition effective_team_id (team_id_arg : option Z) (o : League) : Z :=
  match team_id_arg with
  | Some t => t
  | None => team_id o
  end.

(** The request of [_fetch_team_meta]. *)
Definition team_request (FBA_ENDPOINT : string) (o : League) : request :=
  fetch_request FBA_ENDPOINT o [("view", VStr "mTeam")].

(** ** Sample data *)

Definition sample_nested : value :=
  VDict [(KStr "a", VDict [(KStr "b", VDict [(KStr "c", VInt 5)])])].

Definition sample_stats_table : list (key * string) :=
  [(KInt 0, "points"); (KInt 1, "blocks"); (KInt 2, "steals");
   (KInt 3, "assists"); (KInt 6, "rebounds")].

Definition sample_raw_stats : list (key * value) :=
  [(KInt 0, VInt 10); (KInt 1, VInt 3); (KInt 999, VInt 7)].

Definition sample_record (team : string) (p b s a r : Z) : value :=
  VDict [(KStr "teamId", VStr team);
         (KStr "name", VStr "player");
         (KStr "id", VInt 1);
         (KStr "stats",
          VDict [(KStr "points", VInt p); (KStr "blocks", VInt b);
                 (KStr "steals", VInt s); (KStr "assists", VInt a);
                 (KStr "rebounds", VInt r)])].

Definition sample_team (name : string) : value :=
  VDict [(KStr "id", VInt 1);
         (KStr "abbrev", VStr name);
         (KStr "primaryOwner", VStr "owner");
         (KStr "nickname", VStr name);
         (KStr "record",
          VDict [(KStr "overall",
                  VDict [(KStr "wins", VInt 3); (KStr "losses", VInt 2);
                         (KStr "ties", VInt 0)])]);
         (KStr "valuesByStat", VDict [])].

Definition sample_league : League :=
  mkLeague (VDict [(KStr "swid", VStr "x")]) 42 2020 2
           (Some (VDict [(KStr "current_week", VInt 7)])) None None.

Definition sample_state : state := mkState sample_league [].

(** The sample object after a caller has assigned [roster_stats]. *)
Definition with_roster_stats (rs : value) : state :=
  mkState (mkLeague (cookies sample_league) (league_id sample_league)
             (year sample_league) (team_id sample_league)
             (meta sample_league) None (Some rs)) [].

(** The sample object after a caller has assigned [rosters]. *)
Definition with_rosters (rs : value) : state :=
  mkState (mkLeague (cookies sample_league) (league_id sample_league)
             (year sample_league) (team_id sample_league)
             (meta sample_league) (Some rs) None) [].

(** A transport that answers every request with the same response. *)
Definition const_transport (r : response) : list request -> request -> response :=
  fun _ _ => r.

Definition teams_response (code : Z) (teams : list value) : response :=
  mkResponse code (Ok (VDict [(KStr "teams", VList teams)])).

(** A team payload for [_fetch_teams] that issues no request. *)
Definition sample_fetch_teams : M value :=
  ret (VDict [(KStr "teams",
               VList [VDict [(KStr "id", VInt 1);
                             (KStr "nickname", VStr " Hawks ")]])]).

Definition sample_player (split : Z) : value :=
  VDict [(KStr "playerId", VInt 9);
         (KStr "playerPoolEntry",
          VDict [(KStr "player",
                  VDict [(KStr "fullName", VStr "A B");
                         (KStr "id", VInt 9);
                         (KStr "stats",
                          VList [VDict [(KStr "statSplitTypeId", VInt split);
                                        (KStr "stats",
                                         VDict [(KInt 0, VInt 10)])]])])])].

Definition sample_roster (players : list value) : value :=
  VDict [(KStr "id", VInt 1);
         (KStr "roster", VDict [(KStr "entries", VList players)])].

(** ** Further vocabulary: the rest of the class's behaviour *)

(** The object as [__init__] has it when it calls [_fetch_league_meta]. *)
Definition init_object (cookies : value) (league_id year team_id : Z)
    : League :=
  mkLeague cookies league_id year team_id None None None.

(** The request of [_fetch_league_meta]. *)
Definition league_request (FBA_ENDPOINT : string) (o : League) : request :=
  fetch_request FBA_ENDPOINT o [].

(** The request of [_fetch_rosters] for the scoring period [cw]. *)
Definition rosters_request (FBA_ENDPOINT : string) (o : League) (cw : value)
    : request :=
  fetch_request FBA_ENDPOINT o
    [("view", VStr "mRoster"); ("scoringPeriod", cw)].

(** A league payload as [_fetch_league_meta] reads it. *)
Definition sample_league_payload : value :=
  VDict [(KStr "members",
          VList [VDict [(KStr "id", VStr "m1");
                        (KStr "displayName", VStr "Ann")]]);
         (KStr "teams",
          VList [VDict [(KStr "id", VInt 1);
                        (KStr "owners", VList [VStr "m1"]);
                        (KStr "nickname", VStr "Hawks")]]);
         (KStr "status",
          VDict [(KStr "currentMatchupPeriod", VInt 7);
                 (KStr "latestScoringPeriod", VInt 48)])].

(** The object [x] has the key [k]. *)
Definition has_key (x : value) (k : string) : Prop :=
  exists v, reaches x [k] v.

(** [y] is the member entry built from the payload's member [x]. *)
Definition member_view (x y : value) : Prop :=
  exists i n,
    reaches x ["id"] i /\
    reaches x ["displayName"] n /\
    y = VDict [(KStr "id", i); (KStr "name", n)].

(** [y] is the team entry built from the payload's team [x]: its owner is
    the first element of [x['owners']]. *)
Definition team_view (x y : value) : Prop :=
  exists i os o n,
    reaches x ["id"] i /\
    reaches x ["owners"] os /\
    getitem os (VInt 0) = Ok o /\
    reaches x ["nickname"] n /\
    y = VDict [(KStr "id", i); (KStr "owner", o); (KStr "name", n)].

(** The league metadata [m] was built from the payload [data]. *)
Definition meta_view (data m : value) : Prop :=
  exists cw nd vm pm ms vt pt ts,
    reaches data ["status"; "currentMatchupPeriod"] cw /\
    reaches data ["status"; "latestScoringPeriod"] nd /\
    reaches data ["members"] vm /\ py_iter vm = Ok pm /\
    Forall2 member_view pm ms /\
    reaches data ["teams"] vt /\ py_iter vt = Ok pt /\
    Forall2 team_view pt ts /\
    m = VDict [(KStr "current_week", cw);
               (KStr "nba_day", nd);
               (KStr "members", VList ms);
               (KStr "teams", VList ts)].

(** A payload member / team that [_fetch_league_meta] can read. *)
Definition readable_member (x : value) : Prop :=
  has_key x "id" /\ has_key x "displayName".

Definition readable_team (x : value) : Prop :=
  has_key x "id" /\ has_key x "nickname" /\
  exists os o, reaches x ["owners"] os /\ getitem os (VInt 0) = Ok o.

(** A payload whose second team has no owner. *)
Definition sample_ownerless_payload : value :=
  VDict [(KStr "members", VList []);
         (KStr "teams",
          VList [VDict [(KStr "id", VInt 1);
                        (KStr "owners", VList [VStr "m1"]);
                        (KStr "nickname", VStr "Hawks")];
                 VDict [(KStr "id", VInt 2);
                        (KStr "owners", VList []);
                        (KStr "nickname", VStr "Owls")]]);
         (KStr "status",
          VDict [(KStr "currentMatchupPeriod", VInt 7);
                 (KStr "latestScoringPeriod", VInt 48)])].

(** The keys [_fetch_team_meta] reads from the resolved team. *)
Definition team_meta_keys : list string :=
  ["abbrev"; "primaryOwner"; "nickname"; "record"; "overall"; "wins";
   "losses"; "ties"; "valuesByStat"].

(** [m] is the metadata built for the requested id [tid] from the
    provider's team [t]. *)
Definition team_meta_view (tid : Z) (t m : value) : Prop :=
  exists abbrev owner name wins losses ties stats,
    reaches t ["abbrev"] abbrev /\
    reaches t ["primaryOwner"] owner /\
    reaches t ["nickname"] name /\
    reaches t ["record"; "overall"; "wins"] wins /\
    reaches t ["record"; "overall"; "losses"] losses /\
    reaches t ["record"; "overall"; "ties"] ties /\
    reaches t ["valuesByStat"] stats /\
    m = VDict [(KStr "id", VInt tid);
               (KStr "abbrev", abbrev);
               (KStr "owner", owner);
               (KStr "name", name);
               (KStr "record", VTuple [wins; losses; ties]);
               (KStr "stats", stats)].

(** A table in which two provider identifiers share a name. *)
Definition sample_merging_table : list (key * string) :=
  [(KInt 4, "rebounds"); (KInt 5, "rebounds"); (KInt 0, "points")].

(** [y] is the pair recorded for the roster entry [p]. *)
Definition pair_view (p y : value) : Prop :=
  exists pid fn,
    reaches p ["playerId"] pid /\
    reaches p ["playerPoolEntry"; "player"; "fullName"] fn /\
    y = VTuple [pid; fn].

(** [(k, v)] is what [_fetch_rosters] records for the payload team [t]:
    the key of its id and one pair per roster entry, in order. *)
Definition roster_view (t : value) (kv : key * value) : Prop :=
  exists tid es ps pairs,
    reaches t ["id"] tid /\
    key_of_value tid = Ok (fst kv) /\
    reaches t ["roster"; "entries"] es /\
    py_iter es = Ok ps /\
    Forall2 pair_view ps pairs /\
    snd kv = VList pairs.

(** The key and the list one pass of the loop of [_fetch_rosters] stores. *)
Definition roster_binding (team : value) : result (key * value) :=
  (tid <- getitem team (VStr "id") ;;
   k <- key_of_value tid ;;
   r <- getitem team (VStr "roster") ;;
   es <- getitem r (VStr "entries") ;;
   ps <- py_iter es ;;
   pairs <- mapM roster_pair ps ;;
   Ok (k, VList pairs))%result.

(** A roster payload with two teams that share the id 1. *)
Definition sample_entry (pid : Z) (name : string) : value :=
  VDict [(KStr "playerId", VInt pid);
         (KStr "playerPoolEntry",
          VDict [(KStr "player", VDict [(KStr "fullName", VStr name)])])].

Definition sample_roster_team (id : Z) (entries : list value) : value :=
  VDict [(KStr "id", VInt id);
         (KStr "roster", VDict [(KStr "entries", VList entries)])].

Definition sample_rosters_payload : value :=
  VDict [(KStr "teams",
          VList [sample_roster_team 1 [sample_entry 10 "A"];
                 sample_roster_team 2 [];
                 sample_roster_team 1 [sample_entry 11 "B";
                                       sample_entry 12 "C"]])].

(** The player's stats list is a list of statline objects none of which is
    the season total. *)
Definition no_season_player (p : value) : bool :=
  match get_nested p "playerPoolEntry.player.stats" with
  | VList sl => forallb is_dict sl && negb (existsb is_season sl)
  | _ => false
  end.

(** [roster['roster'].get('entries')] when it is a list. *)
Definition roster_entries (r : value) : option (list value) :=
  match getitem r (VStr "roster") with
  | Ok rr =>
      match method_get rr (VStr "entries") with
      | Ok (VList ps) => Some ps
      | _ => None
      end
  | Err _ => None
  end.

Definition no_season_roster (r : value) : bool :=
  match roster_entries r with
  | Some ps => forallb no_season_player ps
  | None => false
  end.

(** A [_fetch_teams] that fails: it raises and records a request. *)
Definition failing_fetch_teams : M value :=
  fun st =>
    (Err (HttpError 500),
     after_request st (mkRequest "teams" [] VNone)).




(** A record built by the extraction step carries a string, the team
    nickname, as [teamId]. *)
Definition extracted_named (d : value) : Prop :=
  exists s player rel, d = player_metadata (VStr s) player rel.

(** A totals record whose [teamId] is a string. *)
Definition totals_named (x : value) : Prop :=
  exists s rest, x = VDict ((KStr "teamId", VStr s) :: rest).

(** The object with [roster_stats] assigned by a caller. *)
Definition set_roster_stats (o : League) (rs : value) : League :=
  mkLeague (cookies o) (league_id o) (year o) (team_id o) (meta o)
           (rosters o) (Some rs).

(** A record one of whose stat fields is null (or absent), the others being
    integers or null. *)
Definition is_none (v : value) : bool :=
  match v with
  | VNone => true
  | _ => false
  end.

Definition null_stat_record (d : value) : bool :=
  is_dict d &&
  match getitem d (VStr "stats") with
  | Ok (VDict s) =>
      forallb (int_or_absent s) stat_fields &&
      existsb (fun f => is_none (items_get s f)) stat_fields
  | _ => false
  end.

Definition sample_null_record (team : string) : value :=
  VDict [(KStr "teamId", VStr team);
         (KStr "stats",
          VDict [(KStr "points", VInt 4); (KStr "blocks", VNone);
                 (KStr "steals", VInt 1); (KStr "assists", VInt 1)])].

(** ** The rest of the class: [__repr__] *)

(** f'<League `{self.league_id}` {self.year}>' *)
Definition __repr__ (o : League) : string :=
  ("<League `" ++ str_of_Z (league_id o) ++ "` " ++ str_of_Z (year o)
   ++ ">")%string.

(** The character [c] does not occur in [s]. *)
Fixpoint absent (c : ascii) (s : string) : Prop :=
  match s with
  | EmptyString => True
  | String x s' => x <> c /\ absent c s'
  end.

(** The number of season-total statlines of a player. *)
Definition season_count (p : value) : nat :=
  match py_iter (get_nested p "playerPoolEntry.player.stats") with
  | Ok sl => List.length (filter is_season sl)
  | Err _ => 0%nat
  end.

(** [team] is the stat list built for [roster]: it has one record per
    season-total statline of the roster's players. *)
Definition counted_team (roster : value) (team : list value) : Prop :=
  exists r es ps,
    getitem roster (VStr "roster") = Ok r /\
    method_get r (VStr "entries") = Ok es /\
    py_iter es = Ok ps /\
    List.length team = list_sum (map season_count ps).

(** A player with two season-total statlines. *)
Definition sample_double_player : value :=
  VDict [(KStr "playerPoolEntry",
          VDict [(KStr "player",
                  VDict [(KStr "stats",
                          VList [VDict [(KStr "statSplitTypeId", VInt 2);
                                        (KStr "stats", VDict [])];
                                 VDict [(KStr "statSplitTypeId", VInt 0);
                                        (KStr "stats", VDict [])];
                                 VDict [(KStr "statSplitTypeId", VInt 2);
                                        (KStr "stats",
                                         VDict [(KInt 0, VInt 3)])]])])])].

(** ** Basic facts about the object model *)

Lemma key_eqb_spec (a b : key) : reflect (a = b) (key_eqb a b).
Proof.
  destruct a as [|x|x], b as [|y|y]; simpl; try (constructor; congruence).
  - destruct (Z.eqb_spec x y); constructor; congruence.
  - destruct (String.eqb_spec x y); constructor; congruence.
Qed.

Lemma key_eqb_refl (a : key) : key_eqb a a = true.
Proof. destruct (key_eqb_spec a a); congruence. Qed.

Lemma key_eqb_eq (a b : key) : key_eqb a b = true <-> a = b.
Proof. destruct (key_eqb_spec a b); split; congruence. Qed.

Lemma key_eqb_neq (a b : key) : key_eqb a b = false <-> a <> b.
Proof. destruct (key_eqb_spec a b); split; congruence. Qed.

Lemma request_status_2xx (code : Z) :
  is_2xx code -> request_status code = Ok tt.
Proof.
  unfold is_2xx, request_status; intros [H1 H2].
  apply Z.leb_le in H1; apply Z.leb_le in H2.
  now rewrite H1, H2.
Qed.

Lemma request_status_other (code : Z) :
  ~ is_2xx code -> request_status code = Err (HttpError code).
Proof.
  unfold is_2xx, request_status; intros H.
  destruct (Z.leb_spec 200 code); destruct (Z.leb_spec code 299);
    simpl; try reflexivity; lia.
Qed.

(** ** The constructor and the status check *)

(** C1: constructing the aggregator with credential material that Python
    treats as false (absent, i.e. [None], or empty) fails with the
    constructor's [ValueError] -- the specification's [AuthError] -- for
    every [league_id], [year] and [team_id], and the list of requests
    issued is the one it started from: no fetch is attempted. *)
Theorem init_without_credentials_fails :
  forall FBA_ENDPOINT transport league_id year team_id cookies sent0,
    truthy cookies = false ->
    __init__ FBA_ENDPOINT transport league_id year team_id cookies sent0
    = (Err AuthError, sent0).
Proof.
  intros FBA tr lid yr tid ck sent0 Hck.
  unfold __init__. rewrite Hck. reflexivity.
Qed.

Lemma init_without_credentials_fails_witness :
  truthy VNone = false /\
  truthy (VDict []) = false /\
  __init__ "https://host/" (const_transport (teams_response 200 []))
           1 2020 3 VNone []
  = (Err AuthError, []) /\
  __init__ "https://host/" (const_transport (teams_response 200 []))
           1 2020 3 (VDict []) []
  = (Err AuthError, []).
Proof.
  split; [reflexivity|]. split; [reflexivity|]. split.
  - apply (init_without_credentials_fails _ _ 1 2020 3 VNone []).
    reflexivity.
  - apply (init_without_credentials_fails _ _ 1 2020 3 (VDict []) []).
    reflexivity.
Defined.

(** C2: the status validation succeeds silently on every status in
    [200,299] and raises [HttpError] carrying the status on every other
    one; and when the response to a fetch (league meta, team meta,
    rosters) has a status outside [200,299], the fetch raises [HttpError]
    with that status and leaves the object -- in particular [meta] -- as
    it was: only the request is recorded. *)
Theorem fetch_fails_on_bad_status :
  forall FBA_ENDPOINT transport st,
    (forall code, is_2xx code -> request_status code = Ok tt) /\
    (forall code, ~ is_2xx code ->
       request_status code = Err (HttpError code)) /\
    (forall rq code,
       rq = fetch_request FBA_ENDPOINT (self st) [] ->
       code = status_code (transport (sent st) rq) ->
       ~ is_2xx code ->
       _fetch_league_meta FBA_ENDPOINT transport st
       = (Err (HttpError code), after_request st rq)) /\
    (forall team_id_arg rq code,
       rq = fetch_request FBA_ENDPOINT (self st) [("view", VStr "mTeam")] ->
       code = status_code (transport (sent st) rq) ->
       ~ is_2xx code ->
       _fetch_team_meta FBA_ENDPOINT transport team_id_arg st
       = (Err (HttpError code), after_request st rq)) /\
    (forall team_id_arg m cw rq code,
       meta (self st) = Some m ->
       getitem m (VStr "current_week") = Ok cw ->
       rq = fetch_request FBA_ENDPOINT (self st)
              [("view", VStr "mRoster"); ("scoringPeriod", cw)] ->
       code = status_code (transport (sent st) rq) ->
       ~ is_2xx code ->
       _fetch_rosters FBA_ENDPOINT transport team_id_arg st
       = (Err (HttpError code), after_request st rq)).
Proof.
  intros FBA tr st.
  split; [exact request_status_2xx|].
  split; [exact request_status_other|].
  split; [|split].
  - intros rq code -> -> Hbad.
    unfold _fetch_league_meta, bind, get_self, requests_get, lift; simpl.
    unfold fetch_request in Hbad |- *.
    rewrite (request_status_other _ Hbad). reflexivity.
  - intros tid rq code -> -> Hbad.
    unfold _fetch_team_meta, bind, get_self, requests_get, lift; simpl.
    unfold fetch_request in Hbad |- *.
    rewrite (request_status_other _ Hbad). reflexivity.
  - intros tid m cw rq code Hm Hcw -> -> Hbad.
    unfold _fetch_rosters, bind, get_self, requests_get, lift, attr; simpl.
    rewrite Hm. unfold ret. rewrite Hcw.
    unfold fetch_request in Hbad |- *.
    rewrite (request_status_other _ Hbad). reflexivity.
Qed.

Lemma fetch_fails_on_bad_status_witness :
  request_status 204 = Ok tt /\
  request_status 404 = Err (HttpError 404) /\
  (let tr := const_transport (teams_response 404 []) in
   let view := [("view", VStr "mTeam")] in
   let week := [("view", VStr "mRoster"); ("scoringPeriod", VInt 7)] in
   _fetch_league_meta "https://host/" tr sample_state
   = (Err (HttpError 404),
      after_request sample_state
        (fetch_request "https://host/" sample_league [])) /\
   _fetch_team_meta "https://host/" tr (Some 1) sample_state
   = (Err (HttpError 404),
      after_request sample_state
        (fetch_request "https://host/" sample_league view)) /\
   _fetch_rosters "https://host/" tr None sample_state
   = (Err (HttpError 404),
      after_request sample_state
        (fetch_request "https://host/" sample_league week))).
Proof.
  destruct (fetch_fails_on_bad_status "https://host/"
              (const_transport (teams_response 404 [])) sample_state)
    as (H1 & H2 & H3 & H4 & H5).
  split; [apply H1; unfold is_2xx; lia|].
  split; [apply H2; unfold is_2xx; lia|].
  split; [|split].
  - apply (H3 _ 404 eq_refl eq_refl). unfold is_2xx; lia.
  - apply (H4 (Some 1) _ 404 eq_refl eq_refl). unfold is_2xx; lia.
  - apply (H5 None _ (VInt 7) _ 404 eq_refl eq_refl eq_refl eq_refl).
    unfold is_2xx; lia.
Defined.

(** ** The nested field accessor *)

Lemma walk_reaches (segs : list string) :
  forall m v, walk segs m = Some v <-> reaches m segs v.
Proof.
  induction segs as [|k segs IH]; intros m v; simpl.
  - split.
    + intros [= ->]. constructor.
    + intros H; inversion H; reflexivity.
  - split.
    + destruct m; try discriminate.
      destruct (dict_get d (KStr k)) as [w|] eqn:E; try discriminate.
      intros H. apply IH in H. econstructor; eassumption.
    + intros H; inversion H; subst.
      match goal with E : dict_get _ _ = Some _ |- _ => rewrite E end.
      now apply IH.
Qed.

Lemma walk_stuck (pre : list string) :
  forall m k post cur,
    reaches m pre cur -> stuck_at cur k -> walk (pre ++ k :: post) m = None.
Proof.
  induction pre as [|p pre IH]; intros m k post cur Hr Hs; simpl.
  - inversion Hr; subst.
    destruct cur; try reflexivity.
    simpl in Hs. now rewrite Hs.
  - inversion Hr; subst.
    match goal with E : dict_get _ _ = Some _ |- _ => rewrite E end.
    eapply IH; eassumption.
Qed.

(** C3: the accessor walks the dot-delimited path segment by segment.
    When the whole path can be followed through mappings it returns the
    value at its end; when some segment is absent, or the value reached
    before the path is exhausted is not a mapping, it returns the missing
    sentinel (it is a total function: it never fails). On
    [{"a": {"b": {"c": 5}}}] the path "a.b.c" yields 5 and the paths
    "a.x.c" and "a.b.c.d" yield the sentinel. The accessor is a function
    of its two arguments that returns only the value read. *)
Theorem get_nested_walks_path :
  forall m path,
    (forall v, reaches m (split_dots path) v -> get_nested m path = v) /\
    (forall pre k post cur,
       split_dots path = pre ++ k :: post ->
       reaches m pre cur ->
       stuck_at cur k ->
       get_nested m path = VMissing) /\
    get_nested sample_nested "a.b.c" = VInt 5 /\
    get_nested sample_nested "a.x.c" = VMissing /\
    get_nested sample_nested "a.b.c.d" = VMissing.
Proof.
  intros m path. split; [|split].
  - intros v H. unfold get_nested.
    apply walk_reaches in H. now rewrite H.
  - intros pre k post cur Hsplit Hr Hs. unfold get_nested.
    rewrite Hsplit, (walk_stuck pre m k post cur Hr Hs). reflexivity.
  - repeat split; reflexivity.
Qed.

Lemma get_nested_walks_path_witness :
  get_nested sample_nested "a.b" = VDict [(KStr "c", VInt 5)] /\
  get_nested sample_nested "a.b.c.d" = VMissing.
Proof.
  destruct (get_nested_walks_path sample_nested "a.b") as (H1 & _).
  destruct (get_nested_walks_path sample_nested "a.b.c.d") as (_ & H2 & _).
  split.
  - apply H1. simpl.
    eapply reaches_cons; [reflexivity|].
    eapply reaches_cons; [reflexivity|].
    apply reaches_nil.
  - apply (H2 ["a"; "b"; "c"] "d" [] (VInt 5)).
    + reflexivity.
    + eapply reaches_cons; [reflexivity|].
      eapply reaches_cons; [reflexivity|].
      eapply reaches_cons; [reflexivity|].
      apply reaches_nil.
    + exact I.
Defined.

(** ** The stat code mapper *)

Lemma dict_set_fresh (d : dict) (k : key) (v : value) :
  ~ In k (map fst d) -> dict_set d k v = d ++ [(k, v)].
Proof.
  induction d as [|[k' v'] d IH]; simpl; intros Hk; [reflexivity|].
  destruct (key_eqb_spec k' k) as [->|Hne].
  - exfalso. apply Hk. now left.
  - rewrite IH; [reflexivity|]. intros Hin. apply Hk. now right.
Qed.

Lemma fold_dict_set_nodup (ps : list (key * value)) :
  forall acc,
    NoDup (map fst (acc ++ ps)) ->
    fold_left (fun d kv => dict_set d (fst kv) (snd kv)) ps acc = acc ++ ps.
Proof.
  induction ps as [|[k v] ps IH]; intros acc Hnd; simpl.
  - now rewrite app_nil_r.
  - assert (Hfresh : ~ In k (map fst acc)).
    { rewrite map_app in Hnd. simpl in Hnd.
      apply NoDup_remove_2 in Hnd. intros Hin. apply Hnd.
      apply in_or_app. now left. }
    rewrite (dict_set_fresh acc k v Hfresh).
    rewrite IH.
    + now rewrite <- app_assoc.
    + now rewrite <- app_assoc.
Qed.

Lemma dict_of_pairs_nodup (ps : list (key * value)) :
  NoDup (map fst ps) -> dict_of_pairs ps = ps.
Proof.
  intros H. unfold dict_of_pairs.
  now rewrite (fold_dict_set_nodup ps []).
Qed.

Lemma renamed_pairs_In (tbl : list (key * string)) (items : list (key * value)) :
  forall k' v,
    In (k', v) (renamed_pairs tbl items) <->
    exists k n, In (k, v) items /\ stat_name tbl k = Some n /\ k' = KStr n.
Proof.
  induction items as [|[k0 v0] items IH]; intros k' v; simpl.
  - split; [tauto|]. intros (k & n & [] & _).
  - destruct (stat_name_in tbl k0) as [n0|] eqn:E; simpl.
    + rewrite IH. split.
      * intros [[= <- <-]|(k & n & Hin & Hn & ->)].
        -- exists k0, n0. auto.
        -- exists k, n. auto.
      * intros (k & n & [[= -> ->]|Hin] & Hn & ->).
        -- left. simpl in Hn. congruence.
        -- right. exists k, n. auto.
    + rewrite IH. split.
      * intros (k & n & Hin & Hn & ->). exists k, n. auto.
      * intros (k & n & [[= -> ->]|Hin] & Hn & ->).
        -- simpl in Hn. congruence.
        -- exists k, n. auto.
Qed.

Lemma renamed_pairs_keys (tbl : list (key * string)) (items : list (key * value)) :
  forall k',
    In k' (map fst (renamed_pairs tbl items)) ->
    exists k n, In k (map fst items) /\ stat_name tbl k = Some n /\ k' = KStr n.
Proof.
  intros k' Hin. apply in_map_iff in Hin. destruct Hin as ([k1 v] & <- & Hin).
  apply renamed_pairs_In in Hin. destruct Hin as (k & n & Hin & Hn & ->).
  exists k, n. repeat split; auto.
  apply in_map_iff. exists (k, v). auto.
Qed.

Lemma renamed_pairs_nodup (tbl : list (key * string)) (items : list (key * value)) :
  stat_injective tbl ->
  NoDup (map fst items) ->
  NoDup (map fst (renamed_pairs tbl items)).
Proof.
  intros Hinj. induction items as [|[k0 v0] items IH]; simpl; intros Hnd.
  - constructor.
  - inversion Hnd as [|? ? Hnotin Hnd']; subst.
    destruct (stat_name_in tbl k0) as [n0|] eqn:E; simpl; [|now apply IH].
    constructor; [|now apply IH].
    intros Hin. apply renamed_pairs_keys in Hin.
    destruct Hin as (k & n & Hin & Hn & [= <-]).
    assert (k0 = k) by (eapply Hinj; [exact E|exact Hn]).
    subst. contradiction.
Qed.

(** C4: on a raw stat mapping (a dictionary: its keys are distinct), with
    a static table that gives different identifiers different names, the
    mapper's output is a dictionary that contains exactly the entries
    whose key is in the table, each under its canonical name and with its
    value unchanged; an unknown key is dropped and nothing is raised (the
    mapper is a total function). With 0 -> points and 1 -> blocks defined
    and 999 undefined, [{0: 10, 1: 3, 999: 7}] becomes exactly
    [{points: 10, blocks: 3}]. *)
Theorem stat_mapper_filters_and_renames :
  forall STATS_INT_TO_STRING season_totals,
    stat_injective STATS_INT_TO_STRING ->
    NoDup (map fst season_totals) ->
    NoDup (map fst (relevant_items STATS_INT_TO_STRING season_totals)) /\
    (forall name v,
       In (name, v) (relevant_items STATS_INT_TO_STRING season_totals) <->
       exists k n,
         In (k, v) season_totals /\
         stat_name STATS_INT_TO_STRING k = Some n /\
         name = KStr n) /\
    (forall k v,
       In (k, v) season_totals ->
       stat_name STATS_INT_TO_STRING k = None ->
       forall name,
         In (name, v) (relevant_items STATS_INT_TO_STRING season_totals) ->
         exists k' n,
           In (k', v) season_totals /\ k' <> k /\
           stat_name STATS_INT_TO_STRING k' = Some n /\ name = KStr n) /\
    (stat_name STATS_INT_TO_STRING (KInt 0) = Some "points" ->
     stat_name STATS_INT_TO_STRING (KInt 1) = Some "blocks" ->
     stat_name STATS_INT_TO_STRING (KInt 999) = None ->
     relevant_items STATS_INT_TO_STRING sample_raw_stats
     = [(KStr "points", VInt 10); (KStr "blocks", VInt 3)]).
Proof.
  intros tbl items Hinj Hnd.
  assert (Heq : relevant_items tbl items = renamed_pairs tbl items).
  { unfold relevant_items. apply dict_of_pairs_nodup.
    now apply renamed_pairs_nodup. }
  rewrite Heq.
  split; [now apply renamed_pairs_nodup|].
  split; [apply renamed_pairs_In|].
  split.
  - intros k v Hin Hnone name Hout.
    apply renamed_pairs_In in Hout.
    destruct Hout as (k' & n & Hin' & Hn & ->).
    exists k', n. repeat split; auto.
    intros ->. congruence.
  - intros H0 H1 H999. unfold relevant_items, sample_raw_stats.
    simpl in H0, H1, H999. simpl renamed_pairs.
    rewrite H0, H1, H999. reflexivity.
Qed.

Lemma sample_stats_table_injective : stat_injective sample_stats_table.
Proof.
  intros k1 k2 n H1 H2. unfold sample_stats_table, stat_name in *.
  cbn [stat_name_in] in H1, H2.
  repeat match type of H1 with
         | (if key_eqb ?a k1 then _ else _) = _ =>
             destruct (key_eqb_spec a k1); [subst k1|]
         end;
  repeat match type of H2 with
         | (if key_eqb ?a k2 then _ else _) = _ =>
             destruct (key_eqb_spec a k2); [subst k2|]
         end;
  congruence.
Qed.

Lemma stat_mapper_filters_and_renames_witness :
  NoDup (map fst (relevant_items sample_stats_table sample_raw_stats)) /\
  In (KStr "blocks", VInt 3) (relevant_items sample_stats_table sample_raw_stats) /\
  relevant_items sample_stats_table sample_raw_stats
  = [(KStr "points", VInt 10); (KStr "blocks", VInt 3)].
Proof.
  assert (Hnd : NoDup (map fst sample_raw_stats)).
  { simpl. repeat constructor; simpl; intuition discriminate. }
  destruct (stat_mapper_filters_and_renames sample_stats_table
              sample_raw_stats sample_stats_table_injective Hnd)
    as (H1 & H2 & _ & H4).
  split; [exact H1|]. split.
  - apply H2. exists (KInt 1), "blocks". simpl. intuition.
  - apply H4; reflexivity.
Defined.

(** ** Team lookup *)

Lemma py_index_nonneg {A} (l : list A) (i : Z) :
  0 <= i ->
  py_index l i = match nth_error l (Z.to_nat i) with
                 | Some x => Ok x
                 | None => Err IndexError
                 end.
Proof.
  intros Hi. unfold py_index.
  destruct (Z.ltb_spec i 0); [lia|].
  destruct (Z.leb_spec 0 i); [|lia].
  destruct (Z.ltb_spec i (Z.of_nat (List.length l))); simpl; [reflexivity|].
  destruct (nth_error l (Z.to_nat i)) eqn:E; [|reflexivity].
  exfalso. assert (Hlt : (Z.to_nat i < List.length l)%nat).
  { apply nth_error_Some. congruence. }
  lia.
Qed.

Lemma py_index_minus_one {A} (l : list A) (d : A) :
  l <> [] -> py_index l (-1) = Ok (last l d).
Proof.
  intros Hne. destruct (exists_last Hne) as (l' & a & ->).
  unfold py_index. rewrite last_last, length_app. simpl List.length.
  destruct (Z.ltb_spec (-1) 0); [|lia].
  destruct (Z.leb_spec 0 (-1 + Z.of_nat (List.length l' + 1))); [|lia].
  destruct (Z.ltb_spec (-1 + Z.of_nat (List.length l' + 1))
                       (Z.of_nat (List.length l' + 1))); [|lia].
  simpl andb. cbv iota.
  replace (Z.to_nat (-1 + Z.of_nat (List.length l' + 1)))
    with (List.length l') by lia.
  rewrite nth_error_app2 by apply Nat.le_refl.
  rewrite Nat.sub_diag. reflexivity.
Qed.

Lemma getitem_str_not_IndexError (v : value) (k : string) :
  getitem v (VStr k) <> Err IndexError.
Proof.
  destruct v; simpl; try discriminate.
  destruct (dict_get d (KStr k)); discriminate.
Qed.

Lemma team_meta_of_not_IndexError (tid : Z) (t : value) :
  team_meta_of tid t <> Err IndexError.
Proof.
  unfold team_meta_of, rbind.
  repeat match goal with
  | |- context [match getitem ?v (VStr ?k) with _ => _ end] =>
      let E := fresh "E" in
      destruct (getitem v (VStr k)) eqn:E;
      [|intros [= ->]; eapply getitem_str_not_IndexError; eassumption]
  end.
  discriminate.
Qed.

(** What [_fetch_team_meta] does once the response is a 2xx carrying a
    team payload. *)
Lemma fetch_team_meta_ok FBA_ENDPOINT transport st team_id_arg data teams :
  let rq := team_request FBA_ENDPOINT (self st) in
  let tid := effective_team_id team_id_arg (self st) in
  is_2xx (status_code (transport (sent st) rq)) ->
  json (transport (sent st) rq) = Ok data ->
  getitem data (VStr "teams") = Ok teams ->
  _fetch_team_meta FBA_ENDPOINT transport team_id_arg st
  = ((my_team <- getitem teams (VInt (tid - 1)) ;;
      team_meta_of tid my_team)%result,
     after_request st rq).
Proof.
  intros rq tid H2xx Hjson Hteams.
  unfold _fetch_team_meta, bind, get_self, requests_get, lift; simpl.
  fold (fetch_request FBA_ENDPOINT (self st) [("view", VStr "mTeam")]).
  fold (team_request FBA_ENDPOINT (self st)). fold rq.
  rewrite (request_status_2xx _ H2xx), Hjson, Hteams.
  unfold after_request, effective_team_id in *. subst tid.
  destruct (getitem teams _); reflexivity.
Qed.

(** C5: once the team payload has arrived, the team-meta lookup resolves,
    for every team array and every 1-based [team_id], the team at array
    position [team_id - 1] (and raises [IndexError] when the array has no
    such position); for an array of length 3 and [team_id = 2] it is the
    element at index 1. *)
Theorem team_lookup_off_by_one :
  forall FBA_ENDPOINT transport st team_id_arg data teams rq tid,
    rq = team_request FBA_ENDPOINT (self st) ->
    tid = effective_team_id team_id_arg (self st) ->
    is_2xx (status_code (transport (sent st) rq)) ->
    json (transport (sent st) rq) = Ok data ->
    getitem data (VStr "teams") = Ok (VList teams) ->
    1 <= tid ->
    _fetch_team_meta FBA_ENDPOINT transport team_id_arg st
    = (match nth_error teams (Z.to_nat (tid - 1)) with
       | Some my_team => team_meta_of tid my_team
       | None => Err IndexError
       end, after_request st rq) /\
    (forall t0 t1 t2,
       teams = [t0; t1; t2] -> tid = 2 ->
       _fetch_team_meta FBA_ENDPOINT transport team_id_arg st
       = (team_meta_of 2 t1, after_request st rq)).
Proof.
  intros FBA tr st arg data teams rq tid -> -> H2xx Hjson Hteams Htid.
  rewrite (fetch_team_meta_ok FBA tr st arg data (VList teams) H2xx Hjson Hteams).
  assert (Hgen : forall i, 0 <= i ->
            getitem (VList teams) (VInt i)
            = match nth_error teams (Z.to_nat i) with
              | Some x => Ok x
              | None => Err IndexError
              end).
  { intros i Hi. simpl. now apply py_index_nonneg. }
  split.
  - rewrite Hgen by lia.
    destruct (nth_error teams _); reflexivity.
  - intros t0 t1 t2 -> Heq. rewrite Heq. reflexivity.
Qed.

Lemma team_lookup_off_by_one_witness :
  let tr := const_transport
              (teams_response 200
                 [sample_team "A"; sample_team "B"; sample_team "C"]) in
  _fetch_team_meta "https://host/" tr None sample_state
  = (team_meta_of 2 (sample_team "B"),
     after_request sample_state (team_request "https://host/" sample_league)).
Proof.
  intros tr.
  refine (proj2 (team_lookup_off_by_one "https://host/" tr sample_state None
                   (VDict [(KStr "teams",
                            VList [sample_team "A"; sample_team "B";
                                   sample_team "C"])])
                   [sample_team "A"; sample_team "B"; sample_team "C"]
                   _ 2 eq_refl eq_refl _ eq_refl eq_refl _)
                _ _ _ eq_refl eq_refl).
  - unfold is_2xx; simpl; lia.
  - lia.
Defined.

(** C9: for [team_id = 0] the lookup index is [-1], which Python resolves
    to the last element of the (non-empty) team array: no out-of-range
    error is raised, and the metadata built is that of the last team,
    returned under the identifier 0. *)
Theorem team_id_zero_resolves_last :
  forall FBA_ENDPOINT transport st team_id_arg data teams rq,
    rq = team_request FBA_ENDPOINT (self st) ->
    effective_team_id team_id_arg (self st) = 0 ->
    is_2xx (status_code (transport (sent st) rq)) ->
    json (transport (sent st) rq) = Ok data ->
    getitem data (VStr "teams") = Ok (VList teams) ->
    teams <> [] ->
    _fetch_team_meta FBA_ENDPOINT transport team_id_arg st
    = (team_meta_of 0 (last teams VNone), after_request st rq) /\
    fst (_fetch_team_meta FBA_ENDPOINT transport team_id_arg st)
    <> Err IndexError.
Proof.
  intros FBA tr st arg data teams rq -> Hzero H2xx Hjson Hteams Hne.
  rewrite (fetch_team_meta_ok FBA tr st arg data (VList teams) H2xx Hjson Hteams).
  rewrite Hzero. simpl getitem.
  change (0 - 1) with (-1).
  rewrite (py_index_minus_one teams VNone Hne). simpl.
  split; [reflexivity|]. apply team_meta_of_not_IndexError.
Qed.

Lemma team_id_zero_resolves_last_witness :
  let tr := const_transport
              (teams_response 200
                 [sample_team "A"; sample_team "B"; sample_team "C"]) in
  _fetch_team_meta "https://host/" tr (Some 0) sample_state
  = (team_meta_of 0 (sample_team "C"),
     after_request sample_state (team_request "https://host/" sample_league)).
Proof.
  intros tr.
  refine (proj1 (team_id_zero_resolves_last "https://host/" tr sample_state
                   (Some 0)
                   (VDict [(KStr "teams",
                            VList [sample_team "A"; sample_team "B";
                                   sample_team "C"])])
                   [sample_team "A"; sample_team "B"; sample_team "C"]
                   _ eq_refl eq_refl _ eq_refl eq_refl _)).
  - unfold is_2xx; simpl; lia.
  - discriminate.
Defined.

(** ** Team totals *)

Lemma calculate_totals_run (st : state) (rs tid : value) :
  roster_stats (self st) = Some rs ->
  _calculate_totals tid st = (calculate_totals_of rs tid, st).
Proof.
  intros Hrs. unfold _calculate_totals, bind, get_self, attr, lift.
  rewrite Hrs. reflexivity.
Qed.

Lemma has_int_value (f : string) (d : value) :
  has_int f d = true ->
  exists st,
    getitem d (VStr "stats") = Ok st /\
    method_get st (VStr f) = Ok (VInt (stat_of f d)).
Proof.
  unfold has_int, stat_of, stat_value, rbind.
  destruct (getitem d (VStr "stats")) as [st|]; [|discriminate].
  destruct (method_get st (VStr f)) as [v|] eqn:E; [|discriminate].
  destruct v; try discriminate.
  intros _. exists st. split; [reflexivity|exact E].
Qed.

Lemma sum_field_from_ok (f : string) (team : list value) :
  forall acc,
    forallb (has_int f) team = true ->
    sum_field_from f acc team = Ok (acc + field_total f team).
Proof.
  induction team as [|d team IH]; intros acc H; simpl.
  - unfold field_total. simpl. f_equal. lia.
  - apply andb_prop in H. destruct H as [Hd Ht].
    destruct (has_int_value f d Hd) as (st & Hst & Hv).
    rewrite Hst. simpl. rewrite Hv. simpl.
    rewrite (IH _ Ht). unfold field_total. simpl. f_equal. lia.
Qed.

Lemma stat_record_has_int (d : value) (f : string) :
  stat_record d = true -> In f stat_fields -> has_int f d = true.
Proof.
  unfold stat_record. intros H Hf.
  apply andb_prop in H. destruct H as [_ H].
  rewrite forallb_forall in H. now apply H.
Qed.

Lemma team_ok_has_int (team : list value) (f : string) :
  team_ok team = true -> In f stat_fields ->
  forallb (has_int f) team = true.
Proof.
  intros H Hf.
  assert (Hall : forallb stat_record team = true).
  { destruct team; [discriminate|exact H]. }
  rewrite forallb_forall in *. intros d Hd.
  apply stat_record_has_int; auto.
Qed.

Lemma sum_field_ok (f : string) (team : list value) :
  team_ok team = true -> In f stat_fields ->
  sum_field f (VList team) = Ok (field_total f team).
Proof.
  intros H Hf. unfold sum_field. simpl.
  rewrite (sum_field_from_ok f team 0 (team_ok_has_int team f H Hf)).
  reflexivity.
Qed.

Lemma stat_totals_of_ok (team : list value) :
  team_ok team = true -> stat_totals_of (VList team) = Ok (team_totals team).
Proof.
  intros H. unfold stat_totals_of.
  rewrite !(sum_field_ok _ team H) by (simpl; tauto).
  destruct team as [|d team']; [discriminate|].
  simpl getitem. rewrite py_index_nonneg by lia. simpl.
  assert (Hd : is_dict d = true).
  { simpl in H. apply andb_prop in H. destruct H as [H _].
    unfold stat_record in H. apply andb_prop in H. tauto. }
  destruct d; try discriminate. simpl. reflexivity.
Qed.

Lemma stat_totals_of_empty : stat_totals_of (VList []) = Err IndexError.
Proof. reflexivity. Qed.

Lemma mapM_stat_totals_ok (teams : list (list value)) :
  forallb team_ok teams = true ->
  mapM stat_totals_of (map VList teams) = Ok (map team_totals teams).
Proof.
  induction teams as [|t teams IH]; simpl; intros H; [reflexivity|].
  apply andb_prop in H. destruct H as [Ht Hts].
  rewrite (stat_totals_of_ok t Ht). simpl.
  rewrite (IH Hts). reflexivity.
Qed.

Lemma totals_matching_ok (tid : value) (teams : list (list value)) :
  totals_matching tid (map team_totals teams)
  = Ok (map team_totals (filter (team_matches tid) teams)).
Proof.
  induction teams as [|t teams IH]; [reflexivity|].
  cbn [map totals_matching filter]. rewrite IH.
  unfold team_matches at 2.
  destruct (py_eq (team_of (hd VNone t)) tid) eqn:E;
    unfold team_totals at 1; cbn; rewrite E; reflexivity.
Qed.

Lemma filter_none {A} (p : A -> bool) (l : list A) :
  (forall x, In x l -> p x = false) -> filter p l = [].
Proof.
  induction l as [|a l IH]; simpl; intros H; [reflexivity|].
  rewrite (H a) by now left. apply IH. intros x Hx. apply H. now right.
Qed.

Lemma calculate_totals_ok (teams : list (list value)) (tid : value) :
  forallb team_ok teams = true ->
  calculate_totals_of (VList (map VList teams)) tid
  = Ok (VList (if truthy tid
               then map team_totals (filter (team_matches tid) teams)
               else map team_totals teams)).
Proof.
  intros H. unfold calculate_totals_of. simpl py_iter. simpl rbind at 1.
  rewrite (mapM_stat_totals_ok teams H). simpl.
  destruct (truthy tid); simpl; [|reflexivity].
  rewrite totals_matching_ok. reflexivity.
Qed.

Lemma filter_single {A} (p : A -> bool) (pre post : list A) (x : A) :
  p x = true ->
  (forall y, In y (pre ++ post) -> p y = false) ->
  filter p (pre ++ x :: post) = [x].
Proof.
  intros Hx Hothers. rewrite filter_app. simpl. rewrite Hx.
  rewrite !filter_none; [reflexivity| |];
    intros y Hy; apply Hothers; apply in_or_app; auto.
Qed.

Lemma team_totals_field (team : list value) (f : string) :
  In f stat_fields ->
  method_get (team_totals team) (VStr f) = Ok (VInt (field_total f team)).
Proof.
  simpl. intros [<-|[<-|[<-|[<-|[<-|[]]]]]]; reflexivity.
Qed.

(** C6 (amended): for every collection of per-team lists of player stat
    records in which every team's list is non-empty, the totals computation
    produces one totals record per team, each of the five canonical stat
    fields being the sum of that field over the team's records. With no
    filter it returns all teams' totals; with a [team_id] filter that
    Python treats as true it returns the totals of the teams whose
    identifier equals it: one element when exactly one team matches, none
    when no team does. Points 10 and 5 sum to 15. The object is left as it
    was. *)
Theorem totals_sum_and_filter :
  forall st teams,
    roster_stats (self st) = Some (VList (map VList teams)) ->
    forallb team_ok teams = true ->
    _calculate_totals VNone st = (Ok (VList (map team_totals teams)), st) /\
    (forall team f,
       In f stat_fields ->
       method_get (team_totals team) (VStr f)
       = Ok (VInt (Zsum (map (stat_of f) team)))) /\
    (forall tid,
       truthy tid = true ->
       _calculate_totals tid st
       = (Ok (VList (map team_totals (filter (team_matches tid) teams))),
          st)) /\
    (forall tid pre t post,
       truthy tid = true ->
       teams = pre ++ t :: post ->
       team_matches tid t = true ->
       (forall t', In t' (pre ++ post) -> team_matches tid t' = false) ->
       _calculate_totals tid st = (Ok (VList [team_totals t]), st)) /\
    (forall tid,
       truthy tid = true ->
       (forall t, In t teams -> team_matches tid t = false) ->
       _calculate_totals tid st = (Ok (VList []), st)) /\
    (forall d1 d2,
       stat_of "points" d1 = 10 -> stat_of "points" d2 = 5 ->
       field_total "points" [d1; d2] = 15).
Proof.
  intros st teams Hrs Hok.
  assert (Hrun : forall tid,
            _calculate_totals tid st
            = (Ok (VList (if truthy tid
                          then map team_totals
                                 (filter (team_matches tid) teams)
                          else map team_totals teams)), st)).
  { intros tid. rewrite (calculate_totals_run st _ tid Hrs).
    now rewrite calculate_totals_ok. }
  split; [apply (Hrun VNone)|].
  split; [intros team f Hf; now apply team_totals_field|].
  split; [|split; [|split]].
  - intros tid Ht. rewrite Hrun, Ht. reflexivity.
  - intros tid pre t post Ht -> Hm Hothers.
    rewrite Hrun, Ht, (filter_single _ pre post t Hm Hothers). reflexivity.
  - intros tid Ht Hnone.
    rewrite Hrun, Ht, (filter_none _ teams Hnone). reflexivity.
  - intros d1 d2 H1 H2. unfold field_total. simpl. rewrite H1, H2.
    reflexivity.
Qed.

Lemma totals_sum_and_filter_witness :
  let a1 := sample_record "A" 10 1 0 2 4 in
  let a2 := sample_record "A" 5 0 1 3 6 in
  let b1 := sample_record "B" 7 7 7 7 7 in
  let st := with_roster_stats (VList [VList [a1; a2]; VList [b1]]) in
  _calculate_totals VNone st
  = (Ok (VList [team_totals [a1; a2]; team_totals [b1]]), st) /\
  _calculate_totals (VStr "B") st = (Ok (VList [team_totals [b1]]), st) /\
  _calculate_totals (VStr "C") st = (Ok (VList []), st) /\
  field_total "points" [a1; a2] = 15.
Proof.
  intros a1 a2 b1 st.
  destruct (totals_sum_and_filter st [[a1; a2]; [b1]] eq_refl eq_refl)
    as (H1 & _ & _ & H4 & H5 & H6).
  split; [exact H1|].
  split; [|split].
  - apply (H4 (VStr "B") [[a1; a2]] [b1] []); try reflexivity.
    intros t' [<-|[]]. reflexivity.
  - apply H5; [reflexivity|].
    intros t [<-|[<-|[]]]; reflexivity.
  - apply H6; reflexivity.
Defined.

(** C6 as stated fails: on a collection that holds an empty team list the
    computation raises [IndexError] instead of producing a totals record,
    and the filter 0, which matches no team, returns every team's totals
    instead of an empty collection. *)
Lemma totals_claim_counterexample :
  (let st := with_roster_stats (VList [VList []]) in
   _calculate_totals VNone st = (Err IndexError, st)) /\
  (let a := sample_record "A" 10 1 0 2 4 in
   let st := with_roster_stats (VList [VList [a]]) in
   team_matches (VInt 0) [a] = false /\
   _calculate_totals (VInt 0) st = (Ok (VList [team_totals [a]]), st)).
Proof.
  split; [reflexivity|]. split; reflexivity.
Qed.

(** ** The first-element access of the totals computation *)

Lemma rbind_not_err {A B} (r : result A) (k : A -> result B) (e : exn) :
  r <> Err e ->
  (forall a, r = Ok a -> k a <> Err e) ->
  rbind r k <> Err e.
Proof.
  intros Hr Hk. destruct r as [a|e']; simpl.
  - now apply Hk.
  - intros [= ->]. now apply Hr.
Qed.

Lemma method_get_not_IndexError (v : value) (k : string) :
  method_get v (VStr k) <> Err IndexError.
Proof. destruct v; simpl; discriminate. Qed.

Lemma py_add_not_IndexError (acc : Z) (v : value) :
  py_add acc v <> Err IndexError.
Proof. destruct v; simpl; discriminate. Qed.

Lemma sum_field_from_not_IndexError (f : string) (ds : list value) :
  forall acc, sum_field_from f acc ds <> Err IndexError.
Proof.
  induction ds as [|d ds IH]; intros acc; simpl; [discriminate|].
  apply rbind_not_err; [apply getitem_str_not_IndexError|]. intros st _.
  apply rbind_not_err; [apply method_get_not_IndexError|]. intros v _.
  apply rbind_not_err; [apply py_add_not_IndexError|]. intros acc' _.
  apply IH.
Qed.

Lemma sum_field_not_IndexError (f : string) (team : list value) :
  sum_field f (VList team) <> Err IndexError.
Proof. unfold sum_field. simpl. apply sum_field_from_not_IndexError. Qed.

Lemma first_of_nonempty (team : list value) :
  team <> [] -> getitem (VList team) (VInt 0) = Ok (hd VNone team).
Proof.
  intros H. destruct team as [|d team]; [congruence|].
  simpl. now rewrite py_index_nonneg by lia.
Qed.

Lemma stat_totals_of_not_IndexError (team : list value) :
  team <> [] -> stat_totals_of (VList team) <> Err IndexError.
Proof.
  intros H. unfold stat_totals_of. rewrite (first_of_nonempty team H).
  cbn [rbind].
  apply rbind_not_err; [apply method_get_not_IndexError|]. intros tid _.
  do 5 (apply rbind_not_err; [apply sum_field_not_IndexError|]; intros ? _).
  discriminate.
Qed.

Lemma mapM_not_err {A B} (f : A -> result B) (l : list A) (e : exn) :
  (forall x, In x l -> f x <> Err e) -> mapM f l <> Err e.
Proof.
  induction l as [|x l IH]; simpl; intros H; [discriminate|].
  apply rbind_not_err; [apply H; now left|]. intros y _.
  apply rbind_not_err; [apply IH; intros z Hz; apply H; now right|].
  intros ys _. discriminate.
Qed.

Lemma mapM_err_In {A B} (f : A -> result B) (l : list A) (x : A) (e0 : exn) :
  In x l -> f x = Err e0 -> exists e, mapM f l = Err e.
Proof.
  induction l as [|y l IH]; simpl; intros Hin Hx; [tauto|].
  destruct (f y) as [b|e] eqn:Ey; simpl; [|now exists e].
  destruct Hin as [->|Hin]; [congruence|].
  destruct (IH Hin Hx) as (e & ->). now exists e.
Qed.

Lemma mapM_app_err {A B} (f : A -> result B) (pre post : list A) (x : A)
    (ys : list B) (e : exn) :
  mapM f pre = Ok ys -> f x = Err e -> mapM f (pre ++ x :: post) = Err e.
Proof.
  revert ys. induction pre as [|p pre IH]; simpl; intros ys Hpre Hx.
  - now rewrite Hx.
  - destruct (f p) as [b|e']; simpl in *; [|discriminate].
    destruct (mapM f pre) as [bs|e']; simpl in *; [|discriminate].
    now rewrite (IH bs eq_refl Hx).
Qed.

Lemma totals_matching_not_IndexError (tid : value) (xs : list value) :
  totals_matching tid xs <> Err IndexError.
Proof.
  induction xs as [|x xs IH]; simpl; [discriminate|].
  apply rbind_not_err; [apply method_get_not_IndexError|]. intros t _.
  apply rbind_not_err; [exact IH|]. intros rest _. discriminate.
Qed.

Lemma calculate_totals_not_IndexError (teams : list (list value)) (tid : value) :
  (forall team, In team teams -> team <> []) ->
  calculate_totals_of (VList (map VList teams)) tid <> Err IndexError.
Proof.
  intros H. unfold calculate_totals_of. simpl py_iter. cbn [rbind].
  apply rbind_not_err.
  - apply mapM_not_err. intros x Hx. apply in_map_iff in Hx.
    destruct Hx as (team & <- & Hteam).
    apply stat_totals_of_not_IndexError. now apply H.
  - intros tt _. destruct (negb (truthy tid)); [discriminate|].
    apply rbind_not_err; [apply totals_matching_not_IndexError|].
    intros ? _. discriminate.
Qed.

(** C10: the totals computation reads element 0 of each team's list to
    get the team identifier. On a non-empty list that access returns the
    first record, and when every team's list is non-empty the computation
    raises no [IndexError]. When some team's list is empty the computation
    fails; it fails with [IndexError], and produces no zero totals, as soon
    as the teams before the empty one are lists of player stat records. *)
Theorem totals_first_element_access :
  forall st teams tid,
    roster_stats (self st) = Some (VList (map VList teams)) ->
    (forall team, In team teams -> team <> [] ->
       getitem (VList team) (VInt 0) = Ok (hd VNone team)) /\
    ((forall team, In team teams -> team <> []) ->
     fst (_calculate_totals tid st) <> Err IndexError) /\
    (In [] teams -> exists e, _calculate_totals tid st = (Err e, st)) /\
    (forall pre post,
       teams = pre ++ [] :: post ->
       forallb team_ok pre = true ->
       _calculate_totals tid st = (Err IndexError, st)).
Proof.
  intros st teams tid Hrs.
  rewrite (calculate_totals_run st _ tid Hrs). cbn [fst].
  split; [intros team _ Hne; now apply first_of_nonempty|].
  split; [apply calculate_totals_not_IndexError|].
  split.
  - intros Hin.
    assert (Hin' : In (VList []) (map VList teams)).
    { apply in_map_iff. now exists []. }
    destruct (mapM_err_In stat_totals_of _ _ _ Hin' stat_totals_of_empty)
      as (e & He).
    exists e. unfold calculate_totals_of. simpl py_iter. cbn [rbind].
    now rewrite He.
  - intros pre post -> Hpre.
    unfold calculate_totals_of. simpl py_iter. cbn [rbind].
    rewrite map_app. cbn [map].
    rewrite (mapM_app_err stat_totals_of _ _ _ _ _
               (mapM_stat_totals_ok pre Hpre) stat_totals_of_empty).
    reflexivity.
Qed.

Lemma totals_first_element_access_witness :
  let a := sample_record "A" 10 1 0 2 4 in
  let good := with_roster_stats (VList [VList [a]]) in
  let bad := with_roster_stats (VList [VList [a]; VList []]) in
  fst (_calculate_totals VNone good) <> Err IndexError /\
  _calculate_totals VNone bad = (Err IndexError, bad).
Proof.
  intros a good bad.
  destruct (totals_first_element_access good [[a]] VNone eq_refl)
    as (_ & H2 & _).
  destruct (totals_first_element_access bad [[a]; []] VNone eq_refl)
    as (_ & _ & _ & H4).
  split.
  - apply H2. intros team [<-|[]]. discriminate.
  - apply (H4 [[a]] []); reflexivity.
Defined.

(** ** Building the per-player stat records *)

Lemma appending_loop_cons {A B} (f : A -> M (list B)) (x : A) (l : list A)
    (st : state) :
  appending_loop f (x :: l) st
  = match f x st with
    | (Ok ys, st') =>
        match appending_loop f l st' with
        | (Ok zs, st'') => (Ok (ys ++ zs), st'')
        | (Err e, st'') => (Err e, st'')
        end
    | (Err e, st') => (Err e, st')
    end.
Proof.
  unfold appending_loop, bind, ret. simpl. unfold bind, ret.
  destruct (f x st) as [[ys|e] st']; [|reflexivity].
  destruct (mapM_M f l st') as [[rs|e] st'']; reflexivity.
Qed.

Lemma appending_loop_nil {A B} (f : A -> M (list B)) (st : state) :
  appending_loop f [] st = (Ok [], st).
Proof. reflexivity. Qed.

Lemma appending_loop_filter {A B} (f : A -> M (list B)) (keep : A -> bool)
    (l : list A) :
  (forall x, In x l -> keep x = false -> forall st, f x st = (Ok [], st)) ->
  forall st, appending_loop f l st = appending_loop f (filter keep l) st.
Proof.
  induction l as [|x l IH]; intros H st; [reflexivity|].
  assert (IH' : forall st, appending_loop f l st
                           = appending_loop f (filter keep l) st).
  { apply IH. intros y Hy. apply H. now right. }
  cbn [filter]. destruct (keep x) eqn:E.
  - rewrite !appending_loop_cons.
    destruct (f x st) as [[ys|e] st']; [|reflexivity].
    now rewrite IH'.
  - rewrite appending_loop_cons, (H x (or_introl eq_refl) E st), IH'.
    destruct (appending_loop f (filter keep l) st) as [[zs|e] st''];
      reflexivity.
Qed.

Lemma appending_loop_skip {A B} (f : A -> M (list B)) (p : A)
    (pre post : list A) :
  (forall st, f p st = (Ok [], st)) ->
  forall st,
    appending_loop f (pre ++ p :: post) st = appending_loop f (pre ++ post) st.
Proof.
  intros Hp. induction pre as [|x pre IH]; intros st; simpl.
  - rewrite appending_loop_cons, Hp.
    destruct (appending_loop f post st) as [[zs|e] st'']; reflexivity.
  - rewrite !appending_loop_cons.
    destruct (f x st) as [[ys|e] st']; [|reflexivity].
    now rewrite IH.
Qed.

Lemma appending_loop_Forall {A B} (P : B -> Prop) (f : A -> M (list B))
    (l : list A) :
  (forall x st rs st', f x st = (Ok rs, st') -> Forall P rs) ->
  forall st rs st', appending_loop f l st = (Ok rs, st') -> Forall P rs.
Proof.
  intros Hf. induction l as [|x l IH]; intros st rs st' H.
  - rewrite appending_loop_nil in H. injection H as <- _. constructor.
  - rewrite appending_loop_cons in H.
    destruct (f x st) as [[ys|e] st1] eqn:E1; [|discriminate].
    destruct (appending_loop f l st1) as [[zs|e] st2] eqn:E2; [|discriminate].
    injection H as <- _. apply Forall_app. split.
    + eapply Hf; eassumption.
    + eapply IH; eassumption.
Qed.

Lemma mapM_M_Forall {A B} (Q : B -> Prop) (f : A -> M B) (l : list A) :
  (forall x st r st', f x st = (Ok r, st') -> Q r) ->
  forall st rs st', mapM_M f l st = (Ok rs, st') -> Forall Q rs.
Proof.
  intros Hf. induction l as [|x l IH]; intros st rs st' H; simpl in H.
  - injection H as <- _. constructor.
  - unfold bind, ret in H.
    destruct (f x st) as [[y|e] st1] eqn:E1; [|discriminate].
    destruct (mapM_M f l st1) as [[ys|e] st2] eqn:E2; [|discriminate].
    injection H as <- _. constructor.
    + eapply Hf; eassumption.
    + eapply IH; eassumption.
Qed.

Lemma statline_not_season STATS_INT_TO_STRING _fetch_teams roster player s :
  is_dict s = true ->
  is_season s = false ->
  forall st,
    statline_records STATS_INT_TO_STRING _fetch_teams roster player s st
    = (Ok [], st).
Proof.
  intros Hd Hs st. destruct s; try discriminate.
  unfold is_season in Hs. unfold statline_records, bind, lift.
  simpl method_get in *. cbn [rbind] in *.
  rewrite Hs. reflexivity.
Qed.

Lemma statline_records_extracted STATS_INT_TO_STRING _fetch_teams roster
    player s :
  forall st rs st',
    statline_records STATS_INT_TO_STRING _fetch_teams roster player s st
    = (Ok rs, st') ->
    Forall extracted rs.
Proof.
  intros st rs st'. unfold statline_records, bind, lift, ret.
  destruct (method_get s (VStr "statSplitTypeId")) as [t|]; [|discriminate].
  destruct (py_eq t (VInt 2)).
  - destruct (method_get s (VStr "stats")) as [tot|]; [|discriminate].
    destruct (method_items tot) as [items|]; [|discriminate].
    destruct (_fetch_teams st) as [[teams|e] st1]; [|discriminate].
    destruct (method_get roster (VStr "id")) as [idx|]; [|discriminate].
    destruct (team_name_of teams idx) as [name|]; [|discriminate].
    intros [= <- _]. constructor; [|constructor].
    now exists name, player, (relevant_items STATS_INT_TO_STRING items).
  - intros [= <- _]. constructor.
Qed.

Lemma player_records_extracted STATS_INT_TO_STRING _fetch_teams roster player :
  forall st rs st',
    player_records STATS_INT_TO_STRING _fetch_teams roster player st
    = (Ok rs, st') ->
    Forall extracted rs.
Proof.
  intros st rs st'. unfold player_records, bind, lift.
  destruct (py_iter _) as [sl|]; [|discriminate].
  unfold stats_records. apply appending_loop_Forall.
  intros x. apply statline_records_extracted.
Qed.

Lemma team_stats_of_extracted STATS_INT_TO_STRING _fetch_teams roster :
  forall st rs st',
    team_stats_of STATS_INT_TO_STRING _fetch_teams roster st = (Ok rs, st') ->
    Forall extracted rs.
Proof.
  intros st rs st'. unfold team_stats_of, bind, lift.
  destruct (getitem roster (VStr "roster")) as [r|]; [|discriminate].
  destruct (method_get r (VStr "entries")) as [es|]; [|discriminate].
  destruct (py_iter es) as [ps|]; [|discriminate].
  unfold entries_records. apply appending_loop_Forall.
  intros x. apply player_records_extracted.
Qed.

Lemma stat_value_extracted (tn p : value) (rel : dict) (f : string) :
  In f stat_fields ->
  stat_value f (player_metadata tn p rel) = Ok (_cast_none (items_get rel f)).
Proof.
  simpl. intros [<-|[<-|[<-|[<-|[<-|[]]]]]]; reflexivity.
Qed.

Lemma cast_none_defined (x : value) : _cast_none x <> VNone.
Proof. destruct x; discriminate. Qed.

Lemma extracted_stats_defined (d : value) : extracted d -> stats_defined d.
Proof.
  intros (tn & p & rel & ->) f Hf.
  exists (_cast_none (items_get rel f)). split.
  - now apply stat_value_extracted.
  - apply cast_none_defined.
Qed.

Lemma sum_field_from_extracted (f : string) (xs : list (value * value * dict)) :
  In f stat_fields ->
  (forall x, In x xs -> int_or_absent (snd x) f = true) ->
  forall acc,
    sum_field_from f acc (map record_of xs)
    = Ok (acc + Zsum (map (fun x => rel_int (snd x) f) xs)).
Proof.
  intros Hf. induction xs as [|x xs IH]; intros H acc.
  - simpl. f_equal. lia.
  - assert (Hstep : forall ds,
              sum_field_from f acc (record_of x :: ds)
              = (acc' <- py_add acc (_cast_none (items_get (snd x) f)) ;;
                 sum_field_from f acc' ds)%result).
    { intros ds. pose proof (stat_value_extracted (fst (fst x)) (snd (fst x))
                               (snd x) f Hf) as Hv.
      unfold stat_value, rbind in Hv. cbn [sum_field_from]. unfold rbind.
      fold (record_of x) in Hv.
      destruct (getitem (record_of x) (VStr "stats")) as [st|]; [|discriminate].
      now rewrite Hv. }
    cbn [map]. rewrite Hstep.
    pose proof (H x (or_introl eq_refl)) as Hx.
    unfold int_or_absent in Hx. unfold rel_int at 1.
    destruct (items_get (snd x) f); try discriminate; simpl;
      (rewrite IH; [f_equal; lia | intros y Hy; apply H; now right]).
Qed.

Lemma existsb_false_In {A} (p : A -> bool) (l : list A) :
  existsb p l = false -> forall x, In x l -> p x = false.
Proof.
  intros H x Hx. destruct (p x) eqn:E; [|reflexivity].
  assert (existsb p l = true) by (apply existsb_exists; eauto).
  congruence.
Qed.

(** C7: a player whose stats list (a list of statline objects) holds no
    statline with split-type marker 2 adds nothing to the team's stat
    list and raises nothing: the player's own loop returns no record and
    leaves the state as it was, the team's list is the one built from the
    roster without that player -- one shorter than the roster when every
    other player contributes one record -- and, for any player, the
    statlines of the other split types are ignored. *)
Theorem player_without_season_totals_omitted :
  forall STATS_INT_TO_STRING _fetch_teams roster player sl,
    get_nested player "playerPoolEntry.player.stats" = VList sl ->
    forallb is_dict sl = true ->
    existsb is_season sl = false ->
    (forall st,
       player_records STATS_INT_TO_STRING _fetch_teams roster player st
       = (Ok [], st)) /\
    (forall pre post st,
       entries_records STATS_INT_TO_STRING _fetch_teams roster
         (pre ++ player :: post) st
       = entries_records STATS_INT_TO_STRING _fetch_teams roster
           (pre ++ post) st) /\
    (forall pre post r st,
       getitem roster (VStr "roster") = Ok r ->
       method_get r (VStr "entries") = Ok (VList (pre ++ player :: post)) ->
       team_stats_of STATS_INT_TO_STRING _fetch_teams roster st
       = entries_records STATS_INT_TO_STRING _fetch_teams roster
           (pre ++ post) st) /\
    (forall pre post st rs st',
       entries_records STATS_INT_TO_STRING _fetch_teams roster
         (pre ++ post) st = (Ok rs, st') ->
       List.length rs = List.length (pre ++ post) ->
       entries_records STATS_INT_TO_STRING _fetch_teams roster
         (pre ++ player :: post) st = (Ok rs, st') /\
       S (List.length rs) = List.length (pre ++ player :: post)) /\
    (forall other lines st,
       forallb is_dict lines = true ->
       stats_records STATS_INT_TO_STRING _fetch_teams roster other lines st
       = stats_records STATS_INT_TO_STRING _fetch_teams roster other
           (filter is_season lines) st).
Proof.
  intros tbl ft roster player sl Hstats Hdict Hseason.
  assert (Hignored : forall other lines st,
            forallb is_dict lines = true ->
            stats_records tbl ft roster other lines st
            = stats_records tbl ft roster other (filter is_season lines) st).
  { intros other lines st Hd. unfold stats_records.
    apply appending_loop_filter. intros s Hs Hns st0.
    apply statline_not_season; [|exact Hns].
    rewrite forallb_forall in Hd. now apply Hd. }
  assert (Hplayer : forall st,
            player_records tbl ft roster player st = (Ok [], st)).
  { intros st. unfold player_records, bind, lift. rewrite Hstats.
    simpl py_iter. cbv iota. rewrite (Hignored player sl st Hdict).
    rewrite (filter_none is_season sl (existsb_false_In _ _ Hseason)).
    reflexivity. }
  assert (Hskip : forall pre post st,
            entries_records tbl ft roster (pre ++ player :: post) st
            = entries_records tbl ft roster (pre ++ post) st).
  { intros pre post st. unfold entries_records.
    now apply appending_loop_skip. }
  split; [exact Hplayer|].
  split; [exact Hskip|].
  split; [|split; [|exact Hignored]].
  - intros pre post r st Hr He.
    unfold team_stats_of, bind, lift. rewrite Hr, He. simpl py_iter. cbv iota.
    apply Hskip.
  - intros pre post st rs st' Hrun Hlen. split.
    + now rewrite Hskip.
    + rewrite Hlen, !length_app. simpl. lia.
Qed.

Lemma player_without_season_totals_omitted_witness :
  let weekly := sample_player 1 in
  let season := sample_player 2 in
  let roster := sample_roster [season; weekly; season] in
  player_records sample_stats_table sample_fetch_teams roster weekly
    sample_state = (Ok [], sample_state) /\
  team_stats_of sample_stats_table sample_fetch_teams roster sample_state
  = entries_records sample_stats_table sample_fetch_teams roster
      [season; season] sample_state /\
  (exists r1 r2,
     team_stats_of sample_stats_table sample_fetch_teams roster sample_state
     = (Ok [r1; r2], sample_state)).
Proof.
  intros weekly season roster.
  destruct (player_without_season_totals_omitted sample_stats_table
              sample_fetch_teams roster weekly _ eq_refl eq_refl eq_refl)
    as (H1 & _ & H3 & _).
  split; [apply H1|].
  assert (H : team_stats_of sample_stats_table sample_fetch_teams roster
                sample_state
              = entries_records sample_stats_table sample_fetch_teams roster
                  [season; season] sample_state).
  { apply (H3 [season] [season] _ sample_state eq_refl eq_refl). }
  split; [exact H|].
  rewrite H. eexists. eexists. reflexivity.
Defined.

(** C8: every record the extraction step produces carries each of the
    five stat fields with a defined value: the value mapped from the
    source, and 0 when the source has none (absent or null), never [None];
    so the summation over records extracted from integer (or absent)
    source values succeeds on every field, an absent value counting as
    0. *)
Theorem extracted_stats_never_missing :
  forall STATS_INT_TO_STRING _fetch_teams,
    (forall st league_stats st',
       _fetch_stats STATS_INT_TO_STRING _fetch_teams st
       = (Ok league_stats, st') ->
       Forall (Forall (fun d => extracted d /\ stats_defined d))
              league_stats) /\
    (forall team_name player rel f,
       In f stat_fields ->
       stat_value f (player_metadata team_name player rel)
       = Ok (_cast_none (items_get rel f)) /\
       _cast_none (items_get rel f) <> VNone /\
       (dict_get rel (KStr f) = None \/ dict_get rel (KStr f) = Some VNone ->
        stat_value f (player_metadata team_name player rel) = Ok (VInt 0)) /\
       (forall z,
          dict_get rel (KStr f) = Some (VInt z) ->
          stat_value f (player_metadata team_name player rel)
          = Ok (VInt z))) /\
    (forall (xs : list (value * value * dict)) f,
       In f stat_fields ->
       (forall x, In x xs -> int_or_absent (snd x) f = true) ->
       sum_field f (VList (map record_of xs))
       = Ok (Zsum (map (fun x => rel_int (snd x) f) xs))).
Proof.
  intros tbl ft. split; [|split].
  - intros st ls st'. unfold _fetch_stats, bind, get_self, attr, lift.
    destruct (rosters (self st)) as [rs|]; [|discriminate].
    unfold ret. destruct (py_iter rs) as [rl|]; [|discriminate].
    apply mapM_M_Forall. intros roster st0 r st1 Hr.
    apply team_stats_of_extracted in Hr.
    eapply Forall_impl; [|exact Hr].
    intros d Hd. split; [exact Hd|now apply extracted_stats_defined].
  - intros tn p rel f Hf.
    rewrite (stat_value_extracted tn p rel f Hf).
    split; [reflexivity|]. split; [apply cast_none_defined|].
    unfold items_get. split.
    + intros [-> | ->]; reflexivity.
    + intros z ->. reflexivity.
  - intros xs f Hf Hxs. unfold sum_field. simpl py_iter. cbn [rbind].
    now rewrite (sum_field_from_extracted f xs Hf Hxs 0).
Qed.

Lemma extracted_stats_never_missing_witness :
  let st := with_rosters (VList [sample_roster [sample_player 2]]) in
  let rel := relevant_items sample_stats_table [(KInt 0, VInt 10)] in
  let d := player_metadata (VStr "Hawks") (sample_player 2) rel in
  _fetch_stats sample_stats_table sample_fetch_teams st = (Ok [[d]], st) /\
  stats_defined d /\
  stat_value "blocks" d = Ok (VInt 0) /\
  sum_field "blocks" (VList [d; d]) = Ok 0 /\
  sum_field "points" (VList [d; d]) = Ok 20.
Proof.
  intros st rel d.
  destruct (extracted_stats_never_missing sample_stats_table
              sample_fetch_teams) as (H1 & H2 & H3).
  assert (Hrun : _fetch_stats sample_stats_table sample_fetch_teams st
                 = (Ok [[d]], st)) by reflexivity.
  split; [exact Hrun|].
  split.
  - pose proof (H1 _ _ _ Hrun) as HF.
    apply Forall_inv in HF. apply Forall_inv in HF. apply HF.
  - split.
    + destruct (H2 (VStr "Hawks") (sample_player 2) rel "blocks")
        as (_ & _ & Habsent & _); [simpl; tauto|].
      apply Habsent. left. reflexivity.
    + pose (x := (VStr "Hawks", sample_player 2, rel)).
      split.
      * apply (H3 [x; x] "blocks"); [simpl; tauto|].
        intros y [<-|[<-|[]]]; reflexivity.
      * apply (H3 [x; x] "points"); [simpl; tauto|].
        intros y [<-|[<-|[]]]; reflexivity.
Defined.

(** ** What the fetches do to the object and to the transport *)

Lemma fetch_league_meta_state FBA_ENDPOINT transport st :
  snd (_fetch_league_meta FBA_ENDPOINT transport st)
  = after_request st (league_request FBA_ENDPOINT (self st)).
Proof.
  unfold _fetch_league_meta, bind, get_self, requests_get, lift; simpl.
  destruct (request_status _); [|reflexivity].
  destruct (json _); reflexivity.
Qed.


Lemma fetch_rosters_state FBA_ENDPOINT transport team_id_arg st :
  snd (_fetch_rosters FBA_ENDPOINT transport team_id_arg st)
  = match meta (self st) with
    | None => st
    | Some m =>
        match getitem m (VStr "current_week") with
        | Err _ => st
        | Ok cw => after_request st (rosters_request FBA_ENDPOINT (self st) cw)
        end
    end.
Proof.
  unfold _fetch_rosters, bind, get_self, requests_get, lift, attr; simpl.
  destruct (meta (self st)) as [m|]; [|reflexivity]. unfold ret.
  destruct (getitem m _) as [cw|]; [|reflexivity]. simpl.
  destruct (request_status _); [|reflexivity].
  destruct (json _) as [data|]; [|reflexivity].
  destruct (getitem data _) as [dt|]; [|reflexivity].
  destruct (py_iter dt) as [ts|]; [|reflexivity].
  destruct (foldM _ _ _); reflexivity.
Qed.


(** ** The constructor with credentials *)

Lemma init_run FBA_ENDPOINT transport league_id year team_id cookies sent0 :
  truthy cookies = true ->
  __init__ FBA_ENDPOINT transport league_id year team_id cookies sent0
  = match _fetch_league_meta FBA_ENDPOINT transport
            (mkState (init_object cookies league_id year team_id) sent0) with
    | (Ok m, st) => (Ok (set_meta (self st) m), sent st)
    | (Err e, st) => (Err e, sent st)
    end.
Proof. intros H. unfold __init__. now rewrite H. Qed.

Lemma init_ok_object FBA_ENDPOINT transport league_id year team_id cookies
    sent0 o sent1 :
  __init__ FBA_ENDPOINT transport league_id year team_id cookies sent0
  = (Ok o, sent1) ->
  let o0 := init_object cookies league_id year team_id in
  truthy cookies = true /\
  sent1 = sent0 ++ [league_request FBA_ENDPOINT o0] /\
  exists m,
    _fetch_league_meta FBA_ENDPOINT transport (mkState o0 sent0)
    = (Ok m, after_request (mkState o0 sent0)
               (league_request FBA_ENDPOINT o0)) /\
    o = mkLeague cookies league_id year team_id (Some m) None None.
Proof.
  intros H o0. destruct (truthy cookies) eqn:Hck.
  - rewrite (init_run _ _ _ _ _ _ _ Hck) in H. fold o0 in H.
    pose proof (fetch_league_meta_state FBA_ENDPOINT transport
                  (mkState o0 sent0)) as Hst.
    destruct (_fetch_league_meta FBA_ENDPOINT transport (mkState o0 sent0))
      as [[m|e] st]; [|discriminate].
    simpl in Hst. subst st. injection H as <- <-.
    split; [reflexivity|]. split; [reflexivity|].
    exists m. split; reflexivity.
  - unfold __init__ in H. rewrite Hck in H. discriminate.
Qed.

(** X2: with credentials the constructor sends exactly one request -- a
    GET of the league URL with no parameters and the given cookies --
    whatever the outcome; an exception of the metadata fetch is the
    constructor's exception; and an object it returns holds the four
    arguments, the fetched [meta], and neither [rosters] nor
    [roster_stats]. *)
Theorem init_with_credentials :
  forall FBA_ENDPOINT transport lid yr tid ck sent0,
    truthy ck = true ->
    let o0 := init_object ck lid yr tid in
    let run := __init__ FBA_ENDPOINT transport lid yr tid ck sent0 in
    snd run = sent0 ++ [league_request FBA_ENDPOINT o0] /\
    (forall e,
       fst (_fetch_league_meta FBA_ENDPOINT transport (mkState o0 sent0))
       = Err e ->
       fst run = Err e) /\
    (forall o,
       fst run = Ok o ->
       exists m,
         fst (_fetch_league_meta FBA_ENDPOINT transport (mkState o0 sent0))
         = Ok m /\
         o = mkLeague ck lid yr tid (Some m) None None).
Proof.
  intros FBA tr lid yr tid ck sent0 Hck o0 run. subst run.
  rewrite (init_run _ _ _ _ _ _ _ Hck). fold o0.
  pose proof (fetch_league_meta_state FBA tr (mkState o0 sent0)) as Hst.
  destruct (_fetch_league_meta FBA tr (mkState o0 sent0)) as [[m|e] st];
    simpl in Hst; subst st; simpl.
  - split; [reflexivity|]. split; [discriminate|].
    intros o [= <-]. exists m. split; reflexivity.
  - split; [reflexivity|]. split; [intros e' [= <-]; reflexivity|].
    discriminate.
Qed.

Lemma init_with_credentials_witness :
  let tr := const_transport (mkResponse 200 (Ok sample_league_payload)) in
  let ck := VDict [(KStr "swid", VStr "x")] in
  snd (__init__ "https://host/" tr 42 2020 2 ck [])
  = [league_request "https://host/" (init_object ck 42 2020 2)] /\
  exists m,
    fst (__init__ "https://host/" tr 42 2020 2 ck [])
    = Ok (mkLeague ck 42 2020 2 (Some m) None None).
Proof.
  intros tr ck.
  destruct (init_with_credentials "https://host/" tr 42 2020 2 ck []
              eq_refl) as (H1 & _ & H3).
  split; [exact H1|].
  destruct (H3 _ eq_refl) as (m & _ & Ho).
  exists m. cbv zeta in Ho. rewrite <- Ho. reflexivity.
Defined.

(** X3: nothing in the class assigns [rosters] or [roster_stats], so on an
    object the constructor has just returned [_fetch_stats] and
    [_calculate_totals] raise [AttributeError], without sending a request
    or calling [_fetch_teams]. *)
Theorem stats_unavailable_after_construction :
  forall FBA_ENDPOINT transport lid yr tid ck sent0 o sent1,
    __init__ FBA_ENDPOINT transport lid yr tid ck sent0 = (Ok o, sent1) ->
    forall STATS_INT_TO_STRING _fetch_teams team_id_arg,
      _fetch_stats STATS_INT_TO_STRING _fetch_teams (mkState o sent1)
      = (Err AttributeError, mkState o sent1) /\
      _calculate_totals team_id_arg (mkState o sent1)
      = (Err AttributeError, mkState o sent1).
Proof.
  intros FBA tr lid yr tid ck sent0 o sent1 H tbl ft arg.
  destruct (init_ok_object _ _ _ _ _ _ _ _ _ H) as (_ & _ & m & _ & ->).
  split; reflexivity.
Qed.

Lemma stats_unavailable_after_construction_witness :
  let tr := const_transport (mkResponse 200 (Ok sample_league_payload)) in
  let ck := VDict [(KStr "swid", VStr "x")] in
  exists o sent1,
    __init__ "https://host/" tr 42 2020 2 ck [] = (Ok o, sent1) /\
    _fetch_stats sample_stats_table sample_fetch_teams (mkState o sent1)
    = (Err AttributeError, mkState o sent1) /\
    _calculate_totals VNone (mkState o sent1)
    = (Err AttributeError, mkState o sent1).
Proof.
  intros tr ck. eexists. eexists. split; [reflexivity|].
  apply (stats_unavailable_after_construction "https://host/" tr 42 2020 2
           ck [] _ _ eq_refl).
Defined.

(** ** The league metadata *)

Lemma getitem_str_ok (v : value) (k : string) (w : value) :
  getitem v (VStr k) = Ok w <->
  exists d, v = VDict d /\ dict_get d (KStr k) = Some w.
Proof.
  split.
  - destruct v; simpl; try discriminate.
    + destruct (dict_get d (KStr k)) as [x|] eqn:E; [|discriminate].
      intros [= ->]. now exists d.
  - intros (d & -> & H). simpl. now rewrite H.
Qed.

Lemma getitem_str_reaches (v : value) (k : string) (w : value) :
  getitem v (VStr k) = Ok w <-> reaches v [k] w.
Proof.
  rewrite getitem_str_ok. split.
  - intros (d & -> & H). econstructor; [exact H|constructor].
  - intros H. inversion H as [|d k' v' segs w' Hd Hr]; subst.
    inversion Hr; subst. now exists d.
Qed.

Lemma reaches_app (a b c : value) (p q : list string) :
  reaches a p b -> reaches b q c -> reaches a (p ++ q) c.
Proof.
  induction 1 as [|d k v segs w Hd Hr IH]; intros Hq; simpl.
  - exact Hq.
  - econstructor; [exact Hd|now apply IH].
Qed.

Lemma getitem2_reaches (v : value) (k1 k2 : string) (x w : value) :
  getitem v (VStr k1) = Ok x -> getitem x (VStr k2) = Ok w ->
  reaches v [k1; k2] w.
Proof.
  intros H1 H2. apply getitem_str_reaches in H1, H2.
  exact (reaches_app _ _ _ [k1] [k2] H1 H2).
Qed.

Lemma reaches2_getitem (v : value) (k1 k2 : string) (w : value) :
  reaches v [k1; k2] w ->
  exists x, getitem v (VStr k1) = Ok x /\ getitem x (VStr k2) = Ok w.
Proof.
  intros H. inversion H as [|d k v' segs w' Hd Hr]; subst.
  exists v'. split.
  - apply getitem_str_ok. now exists d.
  - now apply getitem_str_reaches.
Qed.

Lemma mapM_Forall2 {A B} (f : A -> result B) (l : list A) :
  forall ys, mapM f l = Ok ys -> Forall2 (fun x y => f x = Ok y) l ys.
Proof.
  induction l as [|x l IH]; simpl; intros ys H.
  - injection H as <-. constructor.
  - destruct (f x) as [y|] eqn:E; [|discriminate]. simpl in H.
    destruct (mapM f l) as [ys'|]; [|discriminate]. simpl in H.
    injection H as <-. constructor; auto.
Qed.

Lemma mapM_of_Forall {A B} (f : A -> result B) (l : list A) :
  Forall (fun x => exists y, f x = Ok y) l -> exists ys, mapM f l = Ok ys.
Proof.
  induction 1 as [|x l (y & Hy) _ (ys & Hys)]; simpl.
  - now exists [].
  - rewrite Hy. simpl. rewrite Hys. simpl. now exists (y :: ys).
Qed.

Lemma request_status_ok_inv (code : Z) (u : unit) :
  request_status code = Ok u -> is_2xx code.
Proof.
  unfold request_status, is_2xx.
  destruct (Z.leb_spec 200 code); destruct (Z.leb_spec code 299);
    simpl; try discriminate. lia.
Qed.

Lemma member_entry_view (x y : value) : member_entry x = Ok y <-> member_view x y.
Proof.
  unfold member_entry, member_view, rbind. split.
  - destruct (getitem x (VStr "id")) as [i|] eqn:Ei; [|discriminate].
    destruct (getitem x (VStr "displayName")) as [n|] eqn:En; [|discriminate].
    intros [= <-]. exists i, n.
    repeat split; now apply getitem_str_reaches.
  - intros (i & n & Hi & Hn & ->).
    apply getitem_str_reaches in Hi, Hn. now rewrite Hi, Hn.
Qed.

Lemma team_entry_view (x y : value) : team_entry x = Ok y <-> team_view x y.
Proof.
  unfold team_entry, team_view, rbind. split.
  - destruct (getitem x (VStr "id")) as [i|] eqn:Ei; [|discriminate].
    destruct (getitem x (VStr "owners")) as [os|] eqn:Eo; [|discriminate].
    destruct (getitem os (VInt 0)) as [o|] eqn:E0; [|discriminate].
    destruct (getitem x (VStr "nickname")) as [n|] eqn:En; [|discriminate].
    intros [= <-]. exists i, os, o, n.
    repeat split; try (now apply getitem_str_reaches). exact E0.
  - intros (i & os & o & n & Hi & Ho & H0 & Hn & ->).
    apply getitem_str_reaches in Hi, Ho, Hn. now rewrite Hi, Ho, H0, Hn.
Qed.

Lemma league_meta_of_view (data m : value) :
  league_meta_of data = Ok m -> meta_view data m.
Proof.
  unfold league_meta_of, rbind.
  destruct (getitem data (VStr "members")) as [vm|] eqn:Evm; [|discriminate].
  destruct (py_iter vm) as [pm|] eqn:Epm; [|discriminate].
  destruct (mapM member_entry pm) as [ms|] eqn:Ems; [|discriminate].
  destruct (getitem data (VStr "teams")) as [vt|] eqn:Evt; [|discriminate].
  destruct (py_iter vt) as [pt|] eqn:Ept; [|discriminate].
  destruct (mapM team_entry pt) as [ts|] eqn:Ets; [|discriminate].
  destruct (getitem data (VStr "status")) as [s|] eqn:Es; [|discriminate].
  destruct (getitem s (VStr "currentMatchupPeriod")) as [cw|] eqn:Ecw;
    [|discriminate].
  destruct (getitem s (VStr "latestScoringPeriod")) as [nd|] eqn:End;
    [|discriminate].
  intros [= <-]. exists cw, nd, vm, pm, ms, vt, pt, ts.
  split; [eapply getitem2_reaches; eassumption|].
  split; [eapply getitem2_reaches; eassumption|].
  split; [now apply getitem_str_reaches|]. split; [assumption|].
  split.
  { apply mapM_Forall2 in Ems. eapply Forall2_impl; [|exact Ems].
    intros a b. apply member_entry_view. }
  split; [now apply getitem_str_reaches|]. split; [assumption|].
  split; [|reflexivity].
  apply mapM_Forall2 in Ets. eapply Forall2_impl; [|exact Ets].
  intros a b. apply team_entry_view.
Qed.

Lemma fetch_league_meta_ok_inv FBA_ENDPOINT transport st m st' :
  _fetch_league_meta FBA_ENDPOINT transport st = (Ok m, st') ->
  let resp := transport (sent st) (league_request FBA_ENDPOINT (self st)) in
  is_2xx (status_code resp) /\
  exists data, json resp = Ok data /\ meta_view data m.
Proof.
  unfold _fetch_league_meta, bind, get_self, requests_get, lift; simpl.
  fold (fetch_request FBA_ENDPOINT (self st) []).
  fold (league_request FBA_ENDPOINT (self st)).
  destruct (request_status _) as [u|] eqn:Es; [|discriminate].
  destruct (json _) as [data|] eqn:Ej; [|discriminate].
  intros [= Hm _]. split.
  - eapply request_status_ok_inv; exact Es.
  - exists data. split; [reflexivity|]. now apply league_meta_of_view.
Qed.

(** X4: when [_fetch_league_meta] returns, the response was a 2xx and
    the metadata has exactly the keys [current_week], [nba_day], [members]
    and [teams]: the payload's current matchup period and latest scoring
    period, one [{id, name}] entry per payload member (its [id] and
    [displayName]) and one [{id, owner, name}] entry per payload team (its
    [id], the first of its [owners] and its [nickname]), in payload
    order. *)
Theorem league_meta_contents :
  forall FBA_ENDPOINT transport st m st',
    _fetch_league_meta FBA_ENDPOINT transport st = (Ok m, st') ->
    let resp := transport (sent st) (league_request FBA_ENDPOINT (self st)) in
    is_2xx (status_code resp) /\
    exists data, json resp = Ok data /\ meta_view data m.
Proof. exact fetch_league_meta_ok_inv. Qed.

Lemma league_meta_contents_witness :
  let tr := const_transport (mkResponse 200 (Ok sample_league_payload)) in
  exists m,
    fst (_fetch_league_meta "https://host/" tr sample_state) = Ok m /\
    meta_view sample_league_payload m.
Proof.
  intros tr. eexists. split; [reflexivity|].
  destruct (league_meta_contents "https://host/" tr sample_state _ _ eq_refl)
    as (_ & data & Hd & Hv).
  injection Hd as <-. exact Hv.
Defined.

(** X5: on an object the constructor has returned, [_fetch_rosters] always
    gets as far as its request, which asks for the view [mRoster] with
    [scoringPeriod] set to the current matchup period of the payload the
    constructor fetched; the object is left as constructed. *)
Theorem rosters_use_constructed_week :
  forall FBA_ENDPOINT transport lid yr tid ck sent0 o sent1,
    __init__ FBA_ENDPOINT transport lid yr tid ck sent0 = (Ok o, sent1) ->
    exists data cw,
      json (transport sent0
              (league_request FBA_ENDPOINT (init_object ck lid yr tid)))
      = Ok data /\
      reaches data ["status"; "currentMatchupPeriod"] cw /\
      forall team_id_arg,
        snd (_fetch_rosters FBA_ENDPOINT transport team_id_arg
               (mkState o sent1))
        = after_request (mkState o sent1)
            (rosters_request FBA_ENDPOINT o cw).
Proof.
  intros FBA tr lid yr tid ck sent0 o sent1 H.
  destruct (init_ok_object _ _ _ _ _ _ _ _ _ H) as (_ & _ & m & Hm & ->).
  destruct (fetch_league_meta_ok_inv _ _ _ _ _ Hm) as (_ & data & Hd & Hv).
  destruct Hv as (cw & nd & vm & pm & ms & vt & pt & ts
                  & Hcw & _ & _ & _ & _ & _ & _ & _ & ->).
  exists data, cw. split; [exact Hd|]. split; [exact Hcw|].
  intros arg. rewrite fetch_rosters_state. reflexivity.
Qed.

Lemma rosters_use_constructed_week_witness :
  let tr := const_transport (mkResponse 200 (Ok sample_league_payload)) in
  let ck := VDict [(KStr "swid", VStr "x")] in
  exists o sent1 cw,
    __init__ "https://host/" tr 42 2020 2 ck [] = (Ok o, sent1) /\
    reaches sample_league_payload ["status"; "currentMatchupPeriod"] cw /\
    snd (_fetch_rosters "https://host/" tr None (mkState o sent1))
    = after_request (mkState o sent1)
        (rosters_request "https://host/" o cw).
Proof.
  intros tr ck.
  destruct (rosters_use_constructed_week "https://host/" tr 42 2020 2 ck []
              _ _ eq_refl) as (data & cw & Hd & Hcw & Hrun).
  injection Hd as <-.
  eexists. eexists. exists cw.
  split; [reflexivity|]. split; [exact Hcw|]. apply Hrun.
Defined.

Lemma fetch_league_meta_ok_run FBA_ENDPOINT transport st data :
  let rq := league_request FBA_ENDPOINT (self st) in
  is_2xx (status_code (transport (sent st) rq)) ->
  json (transport (sent st) rq) = Ok data ->
  _fetch_league_meta FBA_ENDPOINT transport st
  = (league_meta_of data, after_request st rq).
Proof.
  intros rq H2xx Hjson.
  unfold _fetch_league_meta, bind, get_self, requests_get, lift; simpl.
  fold (fetch_request FBA_ENDPOINT (self st) []).
  fold (league_request FBA_ENDPOINT (self st)). fold rq.
  rewrite (request_status_2xx _ H2xx), Hjson. reflexivity.
Qed.

Lemma readable_member_entry (x : value) :
  readable_member x -> exists y, member_entry x = Ok y.
Proof.
  intros ((i & Hi) & (n & Hn)).
  exists (VDict [(KStr "id", i); (KStr "name", n)]).
  apply member_entry_view. now exists i, n.
Qed.

Lemma readable_team_entry (x : value) :
  readable_team x -> exists y, team_entry x = Ok y.
Proof.
  intros ((i & Hi) & (n & Hn) & os & o & Ho & H0).
  exists (VDict [(KStr "id", i); (KStr "owner", o); (KStr "name", n)]).
  apply team_entry_view. now exists i, os, o, n.
Qed.

Lemma team_entry_ownerless (t : value) :
  has_key t "id" -> reaches t ["owners"] (VList []) ->
  team_entry t = Err IndexError.
Proof.
  intros (i & Hi) Ho. apply getitem_str_reaches in Hi, Ho.
  unfold team_entry, rbind. now rewrite Hi, Ho.
Qed.

(** X6: a league in which some team has an empty [owners] list cannot be
    constructed. When the payload's members are readable and so are the
    teams before that one, [x['owners'][0]] raises [IndexError] and the
    constructor raises it too, after its single request: no object, no
    partial metadata. *)
Theorem ownerless_team_blocks_construction :
  forall FBA_ENDPOINT transport lid yr tid ck sent0 data vm pm vt pre t post,
    let rq := league_request FBA_ENDPOINT (init_object ck lid yr tid) in
    truthy ck = true ->
    is_2xx (status_code (transport sent0 rq)) ->
    json (transport sent0 rq) = Ok data ->
    reaches data ["members"] vm ->
    py_iter vm = Ok pm ->
    Forall readable_member pm ->
    reaches data ["teams"] vt ->
    py_iter vt = Ok (pre ++ t :: post) ->
    Forall readable_team pre ->
    has_key t "id" ->
    reaches t ["owners"] (VList []) ->
    __init__ FBA_ENDPOINT transport lid yr tid ck sent0
    = (Err IndexError, sent0 ++ [rq]).
Proof.
  intros FBA tr lid yr tid ck sent0 data vm pm vt pre t post rq
         Hck H2xx Hjson Hvm Hpm Hms Hvt Hpt Hpre Hid Hown.
  rewrite (init_run _ _ _ _ _ _ _ Hck).
  rewrite (fetch_league_meta_ok_run FBA tr
             (mkState (init_object ck lid yr tid) sent0) data H2xx Hjson).
  assert (Hmeta : league_meta_of data = Err IndexError).
  { unfold league_meta_of.
    apply getitem_str_reaches in Hvm, Hvt.
    rewrite Hvm. cbn [rbind]. rewrite Hpm. cbn [rbind].
    destruct (mapM_of_Forall member_entry pm) as (ms & ->).
    { eapply Forall_impl; [|exact Hms]. apply readable_member_entry. }
    cbn [rbind]. rewrite Hvt. cbn [rbind]. rewrite Hpt. cbn [rbind].
    destruct (mapM_of_Forall team_entry pre) as (tsp & Htsp).
    { eapply Forall_impl; [|exact Hpre]. apply readable_team_entry. }
    rewrite (mapM_app_err team_entry pre post t tsp IndexError Htsp
               (team_entry_ownerless t Hid Hown)).
    reflexivity. }
  rewrite Hmeta. reflexivity.
Qed.

Lemma ownerless_team_blocks_construction_witness :
  let tr := const_transport (mkResponse 200 (Ok sample_ownerless_payload)) in
  let ck := VDict [(KStr "swid", VStr "x")] in
  __init__ "https://host/" tr 42 2020 2 ck []
  = (Err IndexError,
     [league_request "https://host/" (init_object ck 42 2020 2)]).
Proof.
  intros tr ck.
  pose (t1 := VDict [(KStr "id", VInt 1);
                     (KStr "owners", VList [VStr "m1"]);
                     (KStr "nickname", VStr "Hawks")]).
  pose (t2 := VDict [(KStr "id", VInt 2);
                     (KStr "owners", VList []);
                     (KStr "nickname", VStr "Owls")]).
  refine (ownerless_team_blocks_construction "https://host/" tr 42 2020 2 ck
            [] sample_ownerless_payload (VList []) [] (VList [t1; t2])
            [t1] t2 [] eq_refl _ eq_refl _ eq_refl _ _ eq_refl _ _ _).
  - unfold is_2xx; simpl; lia.
  - eapply reaches_cons; [reflexivity|constructor].
  - constructor.
  - eapply reaches_cons; [reflexivity|constructor].
  - constructor; [|constructor]. split; [|split].
    + eexists. eapply reaches_cons; [reflexivity|constructor].
    + eexists. eapply reaches_cons; [reflexivity|constructor].
    + eexists. eexists. split.
      * eapply reaches_cons; [reflexivity|constructor].
      * reflexivity.
  - eexists. eapply reaches_cons; [reflexivity|constructor].
  - eapply reaches_cons; [reflexivity|constructor].
Defined.

(** ** Team lookup: the other indices and the fields read *)

Lemma py_index_out_of_range {A} (l : list A) (i : Z) :
  Z.of_nat (List.length l) <= i \/ i < - Z.of_nat (List.length l) ->
  py_index l i = Err IndexError.
Proof.
  intros H. unfold py_index.
  destruct (Z.ltb_spec i 0).
  - destruct (Z.leb_spec 0 (i + Z.of_nat (List.length l))); [|reflexivity].
    destruct (Z.ltb_spec (i + Z.of_nat (List.length l))
                         (Z.of_nat (List.length l))); [|reflexivity].
    lia.
  - destruct (Z.leb_spec 0 i); [|reflexivity].
    destruct (Z.ltb_spec i (Z.of_nat (List.length l))); [|reflexivity].
    lia.
Qed.

Lemma py_index_negative {A} (l : list A) (i : Z) :
  - Z.of_nat (List.length l) <= i < 0 ->
  exists x,
    nth_error l (Z.to_nat (i + Z.of_nat (List.length l))) = Some x /\
    py_index l i = Ok x.
Proof.
  intros H. unfold py_index.
  destruct (Z.ltb_spec i 0); [|lia].
  destruct (Z.leb_spec 0 (i + Z.of_nat (List.length l))); [|lia].
  destruct (Z.ltb_spec (i + Z.of_nat (List.length l))
                       (Z.of_nat (List.length l))); [|lia].
  simpl.
  destruct (nth_error l (Z.to_nat (i + Z.of_nat (List.length l)))) as [x|]
    eqn:E.
  - now exists x.
  - apply nth_error_None in E. lia.
Qed.

(** X7: with a team list of [n] elements in the payload, a [team_id]
    greater than [n], or at most [-n], makes [_fetch_team_meta] raise
    [IndexError]; a [team_id] from [1 - n] to [0] raises nothing: it is
    resolved from the end of the list, to the element at position
    [n + team_id - 1], whose metadata is returned under the requested
    id. *)
Theorem team_id_bounds :
  forall FBA_ENDPOINT transport st team_id_arg data teams rq tid n,
    rq = team_request FBA_ENDPOINT (self st) ->
    tid = effective_team_id team_id_arg (self st) ->
    n = Z.of_nat (List.length teams) ->
    is_2xx (status_code (transport (sent st) rq)) ->
    json (transport (sent st) rq) = Ok data ->
    getitem data (VStr "teams") = Ok (VList teams) ->
    (n < tid \/ tid <= - n ->
     _fetch_team_meta FBA_ENDPOINT transport team_id_arg st
     = (Err IndexError, after_request st rq)) /\
    (- n < tid <= 0 ->
     exists my_team,
       nth_error teams (Z.to_nat (n + tid - 1)) = Some my_team /\
       _fetch_team_meta FBA_ENDPOINT transport team_id_arg st
       = (team_meta_of tid my_team, after_request st rq)).
Proof.
  intros FBA tr st arg data teams rq tid n -> -> -> H2xx Hjson Hteams.
  rewrite (fetch_team_meta_ok FBA tr st arg data (VList teams) H2xx Hjson Hteams).
  simpl getitem. split.
  - intros H. rewrite py_index_out_of_range by lia. reflexivity.
  - intros H.
    destruct (py_index_negative teams
                (effective_team_id arg (self st) - 1)) as (x & Hx & ->);
      [lia|].
    exists x. split; [|reflexivity].
    rewrite <- Hx. f_equal. lia.
Qed.

Lemma team_id_bounds_witness :
  let teams := [sample_team "A"; sample_team "B"; sample_team "C"] in
  let tr := const_transport (teams_response 200 teams) in
  let after := after_request sample_state
                 (team_request "https://host/" sample_league) in
  _fetch_team_meta "https://host/" tr (Some 4) sample_state
  = (Err IndexError, after) /\
  _fetch_team_meta "https://host/" tr (Some (-3)) sample_state
  = (Err IndexError, after) /\
  _fetch_team_meta "https://host/" tr (Some (-2)) sample_state
  = (team_meta_of (-2) (sample_team "A"), after).
Proof.
  intros teams tr after.
  assert (H2xx : is_2xx (status_code
                           (tr (sent sample_state)
                               (team_request "https://host/"
                                  (self sample_state))))).
  { unfold is_2xx; simpl; lia. }
  split; [|split].
  - apply (team_id_bounds "https://host/" tr sample_state (Some 4) _ teams
             _ 4 3 eq_refl eq_refl eq_refl H2xx eq_refl eq_refl). lia.
  - apply (team_id_bounds "https://host/" tr sample_state (Some (-3)) _ teams
             _ (-3) 3 eq_refl eq_refl eq_refl H2xx eq_refl eq_refl). lia.
  - destruct (team_id_bounds "https://host/" tr sample_state (Some (-2)) _
                teams _ (-2) 3 eq_refl eq_refl eq_refl H2xx eq_refl eq_refl)
      as (_ & H).
    destruct H as (t & Ht & Hrun); [lia|].
    simpl in Ht. injection Ht as <-. exact Hrun.
Defined.

Lemma getitem_str_err (v : value) (k : string) (e : exn) :
  getitem v (VStr k) = Err e -> e = TypeError \/ e = KeyError (KStr k).
Proof.
  destruct v; simpl; try (intros [= <-]; now left).
  destruct (dict_get d (KStr k)); [discriminate|].
  intros [= <-]. now right.
Qed.

Lemma team_meta_of_view (tid : Z) (t m : value) :
  team_meta_of tid t = Ok m <-> team_meta_view tid t m.
Proof.
  unfold team_meta_of, team_meta_view, rbind. split.
  - destruct (getitem t (VStr "abbrev")) as [a|] eqn:Ea; [|discriminate].
    destruct (getitem t (VStr "primaryOwner")) as [o|] eqn:Eo; [|discriminate].
    destruct (getitem t (VStr "nickname")) as [n|] eqn:En; [|discriminate].
    destruct (getitem t (VStr "record")) as [r|] eqn:Er; [|discriminate].
    destruct (getitem r (VStr "overall")) as [ov|] eqn:Eov; [|discriminate].
    destruct (getitem ov (VStr "wins")) as [w|] eqn:Ew; [|discriminate].
    destruct (getitem ov (VStr "losses")) as [l|] eqn:El; [|discriminate].
    destruct (getitem ov (VStr "ties")) as [ti|] eqn:Eti; [|discriminate].
    destruct (getitem t (VStr "valuesByStat")) as [s|] eqn:Es; [|discriminate].
    intros [= <-]. exists a, o, n, w, l, ti, s.
    assert (Hrec : reaches t ["record"; "overall"] ov)
      by (eapply getitem2_reaches; eassumption).
    repeat split; try (now apply getitem_str_reaches);
      apply (reaches_app _ _ _ ["record"; "overall"] [_] Hrec);
      now apply getitem_str_reaches.
  - intros (a & o & n & w & l & ti & s
            & Ha & Ho & Hn & Hw & Hl & Hti & Hs & ->).
    apply getitem_str_reaches in Ha, Ho, Hn, Hs.
    rewrite Ha, Ho, Hn, Hs.
    inversion Hw as [|d k r segs w' Hd Hr]; subst.
    assert (Er : getitem (VDict d) (VStr "record") = Ok r)
      by (apply getitem_str_ok; now exists d).
    rewrite Er.
    inversion Hr as [|d1 k1 ov segs1 w1 Hd1 Hr1]; subst.
    assert (Eov : getitem (VDict d1) (VStr "overall") = Ok ov)
      by (apply getitem_str_ok; now exists d1).
    rewrite Eov.
    apply getitem_str_reaches in Hr1. rewrite Hr1.
    assert (Hl' : getitem ov (VStr "losses") = Ok l).
    { inversion Hl as [|? ? r' ? ? Hd' Hr']; subst.
      rewrite Hd in Hd'. injection Hd' as <-.
      inversion Hr' as [|? ? ov' ? ? Hd1' Hr1']; subst.
      rewrite Hd1 in Hd1'. injection Hd1' as <-.
      now apply getitem_str_reaches. }
    assert (Hti' : getitem ov (VStr "ties") = Ok ti).
    { inversion Hti as [|? ? r' ? ? Hd' Hr']; subst.
      rewrite Hd in Hd'. injection Hd' as <-.
      inversion Hr' as [|? ? ov' ? ? Hd1' Hr1']; subst.
      rewrite Hd1 in Hd1'. injection Hd1' as <-.
      now apply getitem_str_reaches. }
    rewrite Hl', Hti'. reflexivity.
Qed.

Lemma team_meta_of_errors (tid : Z) (t : value) (e : exn) :
  team_meta_of tid t = Err e ->
  e = TypeError \/ exists k, In k team_meta_keys /\ e = KeyError (KStr k).
Proof.
  unfold team_meta_of, rbind.
  repeat match goal with
  | |- context [match getitem ?v (VStr ?k) with _ => _ end] =>
      let E := fresh "E" in
      destruct (getitem v (VStr k)) eqn:E;
      [|intros [= <-]; apply getitem_str_err in E;
        destruct E as [->| ->];
        [now left|right; exists k; split; [simpl; tauto|reflexivity]]]
  end.
  discriminate.
Qed.

(** X8: the metadata of the resolved team is returned exactly when the
    team object has [abbrev], [primaryOwner], [nickname], [valuesByStat]
    and [record.overall.wins], [.losses] and [.ties]; it then has exactly
    the keys [id] (the requested id, not the provider's), [abbrev],
    [owner], [name], [record] (the triple wins, losses, ties) and [stats].
    Otherwise the lookup raises [KeyError] for one of the keys it reads,
    or [TypeError] when an object on the way is not a mapping; there is
    no partial result. *)
Theorem team_meta_exactly_when_fields :
  forall tid t,
    (forall m, team_meta_of tid t = Ok m <-> team_meta_view tid t m) /\
    (forall e,
       team_meta_of tid t = Err e ->
       e = TypeError \/
       exists k, In k team_meta_keys /\ e = KeyError (KStr k)).
Proof.
  intros tid t. split.
  - intros m. apply team_meta_of_view.
  - apply team_meta_of_errors.
Qed.

Lemma team_meta_exactly_when_fields_witness :
  team_meta_view 5 (sample_team "A")
    (VDict [(KStr "id", VInt 5);
            (KStr "abbrev", VStr "A");
            (KStr "owner", VStr "owner");
            (KStr "name", VStr "A");
            (KStr "record", VTuple [VInt 3; VInt 2; VInt 0]);
            (KStr "stats", VDict [])]) /\
  (team_meta_of 5 (VDict [(KStr "abbrev", VStr "A")])
   = Err (KeyError (KStr "primaryOwner"))).
Proof.
  split.
  - apply (proj1 (team_meta_exactly_when_fields 5 (sample_team "A"))).
    reflexivity.
  - destruct (proj2 (team_meta_exactly_when_fields 5
                       (VDict [(KStr "abbrev", VStr "A")]))
                _ eq_refl) as [H|(k & _ & H)];
      [discriminate|reflexivity].
Defined.

(** ** Dictionaries built by insertion *)

Lemma dict_get_app (a b : dict) (k : key) :
  dict_get (a ++ b) k
  = match dict_get a k with
    | Some v => Some v
    | None => dict_get b k
    end.
Proof.
  induction a as [|[k' v'] a IH]; simpl; [reflexivity|].
  destruct (key_eqb k' k); [reflexivity|exact IH].
Qed.

Lemma dict_get_In (d : dict) (k : key) (v : value) :
  dict_get d k = Some v -> In (k, v) d.
Proof.
  induction d as [|[k' v'] d IH]; simpl; [discriminate|].
  destruct (key_eqb_spec k' k) as [->|Hne].
  - intros [= ->]. now left.
  - intros H. right. now apply IH.
Qed.

Lemma dict_get_None (d : dict) (k : key) :
  dict_get d k = None <-> ~ In k (map fst d).
Proof.
  induction d as [|[k' v'] d IH]; simpl; [tauto|].
  destruct (key_eqb_spec k' k) as [->|Hne].
  - split; [discriminate|]. intros H. exfalso. apply H. now left.
  - rewrite IH. split.
    + intros H [Heq|Hin]; [congruence|contradiction].
    + intros H Hin. apply H. now right.
Qed.

Lemma dict_get_set_eq (d : dict) (k : key) (v : value) :
  dict_get (dict_set d k v) k = Some v.
Proof.
  induction d as [|[k' v'] d IH]; simpl.
  - now rewrite key_eqb_refl.
  - destruct (key_eqb k' k) eqn:E; simpl; rewrite E; [reflexivity|exact IH].
Qed.

Lemma dict_get_set_ne (d : dict) (k k' : key) (v : value) :
  k <> k' -> dict_get (dict_set d k v) k' = dict_get d k'.
Proof.
  intros Hne. induction d as [|[k0 v0] d IH]; simpl.
  - destruct (key_eqb_spec k k'); [contradiction|reflexivity].
  - destruct (key_eqb_spec k0 k) as [->|Hk]; simpl.
    + destruct (key_eqb_spec k k'); [contradiction|reflexivity].
    + destruct (key_eqb k0 k'); [reflexivity|exact IH].
Qed.

Lemma dict_set_keys (d : dict) (k : key) (v : value) :
  map fst (dict_set d k v)
  = if existsb (key_eqb k) (map fst d)
    then map fst d
    else map fst d ++ [k].
Proof.
  induction d as [|[k' v'] d IH]; simpl; [reflexivity|].
  destruct (key_eqb_spec k' k) as [->|Hne]; simpl.
  - now rewrite key_eqb_refl.
  - destruct (key_eqb_spec k k'); [congruence|]. simpl. rewrite IH.
    destruct (existsb (key_eqb k) (map fst d)); reflexivity.
Qed.

Lemma dict_set_nodup (d : dict) (k : key) (v : value) :
  NoDup (map fst d) -> NoDup (map fst (dict_set d k v)).
Proof.
  intros H. rewrite dict_set_keys.
  destruct (existsb (key_eqb k) (map fst d)) eqn:E; [exact H|].
  apply NoDup_app; [exact H|repeat constructor; intros []|].
  intros x Hx [<-|[]].
  assert (existsb (key_eqb k) (map fst d) = true).
  { apply existsb_exists. exists k. split; [exact Hx|apply key_eqb_refl]. }
  congruence.
Qed.

Lemma fold_dict_set_wf (ps : list (key * value)) :
  forall acc,
    NoDup (map fst acc) ->
    NoDup (map fst (fold_left (fun d kv => dict_set d (fst kv) (snd kv))
                              ps acc)).
Proof.
  induction ps as [|[k v] ps IH]; intros acc H; simpl; [exact H|].
  apply IH. now apply dict_set_nodup.
Qed.

Lemma fold_dict_set_get (ps : list (key * value)) (k : key) :
  forall acc,
    dict_get (fold_left (fun d kv => dict_set d (fst kv) (snd kv)) ps acc) k
    = match dict_get (rev ps) k with
      | Some v => Some v
      | None => dict_get acc k
      end.
Proof.
  induction ps as [|[k0 v0] ps IH]; intros acc; simpl; [reflexivity|].
  rewrite IH, dict_get_app. simpl.
  destruct (dict_get (rev ps) k); [reflexivity|].
  destruct (key_eqb_spec k0 k) as [->|Hne].
  - apply dict_get_set_eq.
  - now apply dict_get_set_ne.
Qed.

Lemma dict_of_pairs_wf (ps : list (key * value)) :
  NoDup (map fst (dict_of_pairs ps)).
Proof. apply fold_dict_set_wf. constructor. Qed.

Lemma dict_of_pairs_get (ps : list (key * value)) (k : key) :
  dict_get (dict_of_pairs ps) k = dict_get (rev ps) k.
Proof.
  unfold dict_of_pairs. rewrite fold_dict_set_get.
  destruct (dict_get (rev ps) k); reflexivity.
Qed.

Lemma renamed_pairs_app (tbl : list (key * string)) (a b : list (key * value)) :
  renamed_pairs tbl (a ++ b) = renamed_pairs tbl a ++ renamed_pairs tbl b.
Proof.
  induction a as [|[k v] a IH]; simpl; [reflexivity|].
  destruct (stat_name_in tbl k); simpl; now rewrite IH.
Qed.

Lemma renamed_pairs_no_name (tbl : list (key * string))
    (items : list (key * value)) (n : string) :
  (forall k v, In (k, v) items -> stat_name tbl k <> Some n) ->
  dict_get (rev (renamed_pairs tbl items)) (KStr n) = None.
Proof.
  intros H. apply dict_get_None. intros Hin.
  apply in_map_iff in Hin. destruct Hin as ([k' v] & Hk & Hin).
  simpl in Hk. subst k'. apply in_rev in Hin.
  apply renamed_pairs_In in Hin.
  destruct Hin as (k & n' & Hin & Hn & [= <-]).
  exact (H k v Hin Hn).
Qed.

(** X9: for every raw stat mapping and every table -- also one that gives
    two identifiers the same name -- the mapper's output is a dictionary
    with distinct keys, each the canonical name of some raw key and
    holding that key's value; under a name it holds the value of the last
    raw entry mapped to that name, and it has no entry for a name that no
    raw key maps to. *)
Theorem stat_mapper_last_entry_wins :
  forall STATS_INT_TO_STRING season_totals,
    NoDup (map fst (relevant_items STATS_INT_TO_STRING season_totals)) /\
    (forall name v,
       dict_get (relevant_items STATS_INT_TO_STRING season_totals) name
       = Some v ->
       exists k n,
         In (k, v) season_totals /\
         stat_name STATS_INT_TO_STRING k = Some n /\
         name = KStr n) /\
    (forall pre k v n post,
       season_totals = pre ++ (k, v) :: post ->
       stat_name STATS_INT_TO_STRING k = Some n ->
       (forall k' v', In (k', v') post ->
                      stat_name STATS_INT_TO_STRING k' <> Some n) ->
       dict_get (relevant_items STATS_INT_TO_STRING season_totals) (KStr n)
       = Some v) /\
    (forall n,
       (forall k v, In (k, v) season_totals ->
                    stat_name STATS_INT_TO_STRING k <> Some n) ->
       dict_get (relevant_items STATS_INT_TO_STRING season_totals) (KStr n)
       = None).
Proof.
  intros tbl items. unfold relevant_items.
  split; [apply dict_of_pairs_wf|].
  split; [|split].
  - intros name v H. rewrite dict_of_pairs_get in H.
    apply dict_get_In, in_rev in H. now apply renamed_pairs_In.
  - intros pre k v n post -> Hn Hpost.
    rewrite dict_of_pairs_get, renamed_pairs_app.
    cbn [renamed_pairs]. unfold stat_name in *. rewrite Hn.
    rewrite rev_app_distr. cbn [rev]. rewrite <- app_assoc, dict_get_app.
    rewrite (renamed_pairs_no_name tbl post n Hpost).
    simpl. now rewrite String.eqb_refl.
  - intros n H. rewrite dict_of_pairs_get.
    now apply renamed_pairs_no_name.
Qed.

Lemma stat_mapper_last_entry_wins_witness :
  relevant_items sample_merging_table
    [(KInt 4, VInt 2); (KInt 0, VInt 9); (KInt 5, VInt 6); (KInt 7, VInt 1)]
  = [(KStr "rebounds", VInt 6); (KStr "points", VInt 9)] /\
  dict_get (relevant_items sample_merging_table
              [(KInt 4, VInt 2); (KInt 0, VInt 9); (KInt 5, VInt 6);
               (KInt 7, VInt 1)]) (KStr "rebounds") = Some (VInt 6).
Proof.
  split; [reflexivity|].
  destruct (stat_mapper_last_entry_wins sample_merging_table
              [(KInt 4, VInt 2); (KInt 0, VInt 9); (KInt 5, VInt 6);
               (KInt 7, VInt 1)]) as (_ & _ & H & _).
  apply (H [(KInt 4, VInt 2); (KInt 0, VInt 9)] (KInt 5) (VInt 6)
           "rebounds" [(KInt 7, VInt 1)]); try reflexivity.
  intros k' v' [[= <- <-]|[]]. discriminate.
Defined.

(** ** The rosters *)

Lemma getitem3_reaches (v : value) (k1 k2 k3 : string) (x y w : value) :
  getitem v (VStr k1) = Ok x -> getitem x (VStr k2) = Ok y ->
  getitem y (VStr k3) = Ok w ->
  reaches v [k1; k2; k3] w.
Proof.
  intros H1 H2 H3. apply getitem_str_reaches in H3.
  exact (reaches_app _ _ _ [k1; k2] [k3] (getitem2_reaches _ _ _ _ _ H1 H2) H3).
Qed.

Lemma roster_pair_view (p y : value) : roster_pair p = Ok y -> pair_view p y.
Proof.
  unfold roster_pair, pair_view, rbind.
  destruct (getitem p (VStr "playerId")) as [pid|] eqn:E1; [|discriminate].
  destruct (getitem p (VStr "playerPoolEntry")) as [e|] eqn:E2; [|discriminate].
  destruct (getitem e (VStr "player")) as [pl|] eqn:E3; [|discriminate].
  destruct (getitem pl (VStr "fullName")) as [fn|] eqn:E4; [|discriminate].
  intros [= <-]. exists pid, fn. split; [now apply getitem_str_reaches|].
  split; [eapply getitem3_reaches; eassumption|reflexivity].
Qed.

Lemma roster_binding_view (t : value) (kv : key * value) :
  roster_binding t = Ok kv -> roster_view t kv.
Proof.
  unfold roster_binding, roster_view, rbind.
  destruct (getitem t (VStr "id")) as [tid|] eqn:E1; [|discriminate].
  destruct (key_of_value tid) as [k|] eqn:E2; [|discriminate].
  destruct (getitem t (VStr "roster")) as [r|] eqn:E3; [|discriminate].
  destruct (getitem r (VStr "entries")) as [es|] eqn:E4; [|discriminate].
  destruct (py_iter es) as [ps|] eqn:E5; [|discriminate].
  destruct (mapM roster_pair ps) as [pairs|] eqn:E6; [|discriminate].
  intros [= <-]. exists tid, es, ps, pairs. simpl.
  split; [now apply getitem_str_reaches|]. split; [exact E2|].
  split; [eapply getitem2_reaches; eassumption|]. split; [exact E5|].
  split; [|reflexivity].
  apply mapM_Forall2 in E6. eapply Forall2_impl; [|exact E6].
  apply roster_pair_view.
Qed.

Lemma add_roster_binding (d : dict) (t : value) :
  add_roster d t
  = (kv <- roster_binding t ;; Ok (dict_set d (fst kv) (snd kv)))%result.
Proof.
  unfold add_roster, roster_binding, rbind.
  destruct (getitem t (VStr "id")) as [tid|]; [|reflexivity].
  destruct (key_of_value tid) as [k|]; [|reflexivity].
  destruct (getitem t (VStr "roster")) as [r|]; [|reflexivity].
  destruct (getitem r (VStr "entries")) as [es|]; [|reflexivity].
  destruct (py_iter es) as [ps|]; [|reflexivity].
  destruct (mapM roster_pair ps); reflexivity.
Qed.

Lemma foldM_add_roster (ts : list value) :
  forall d,
    foldM add_roster ts d
    = (kvs <- mapM roster_binding ts ;;
       Ok (fold_left (fun d kv => dict_set d (fst kv) (snd kv)) kvs d))%result.
Proof.
  induction ts as [|t ts IH]; intros d; simpl; [reflexivity|].
  rewrite add_roster_binding.
  destruct (roster_binding t) as [kv|]; simpl; [|reflexivity].
  rewrite IH. destruct (mapM roster_binding ts); reflexivity.
Qed.

Lemma fetch_rosters_ok_inv FBA_ENDPOINT transport team_id_arg st r st' :
  _fetch_rosters FBA_ENDPOINT transport team_id_arg st = (Ok r, st') ->
  exists m cw data vt ts kvs,
    meta (self st) = Some m /\
    getitem m (VStr "current_week") = Ok cw /\
    is_2xx (status_code
              (transport (sent st)
                 (rosters_request FBA_ENDPOINT (self st) cw))) /\
    json (transport (sent st) (rosters_request FBA_ENDPOINT (self st) cw))
    = Ok data /\
    reaches data ["teams"] vt /\
    py_iter vt = Ok ts /\
    Forall2 roster_view ts kvs /\
    r = VDict (dict_of_pairs kvs).
Proof.
  unfold _fetch_rosters, bind, get_self, requests_get, lift, attr; simpl.
  destruct (meta (self st)) as [m|]; [|discriminate]. unfold ret.
  destruct (getitem m (VStr "current_week")) as [cw|] eqn:Ecw; [|discriminate].
  simpl.
  fold (fetch_request FBA_ENDPOINT (self st)
          [("view", VStr "mRoster"); ("scoringPeriod", cw)]).
  fold (rosters_request FBA_ENDPOINT (self st) cw).
  destruct (request_status _) as [u|] eqn:Es; [|discriminate].
  destruct (json _) as [data|] eqn:Ej; [|discriminate].
  destruct (getitem data (VStr "teams")) as [vt|] eqn:Evt; [|discriminate].
  destruct (py_iter vt) as [ts|] eqn:Ets; [|discriminate].
  rewrite foldM_add_roster.
  destruct (mapM roster_binding ts) as [kvs|] eqn:Ekvs; [|discriminate].
  simpl. intros [= <- _].
  exists m, cw, data, vt, ts, kvs.
  split; [reflexivity|]. split; [exact Ecw|].
  split; [eapply request_status_ok_inv; exact Es|].
  split; [exact Ej|].
  split; [now apply getitem_str_reaches|]. split; [exact Ets|].
  split; [|reflexivity].
  apply mapM_Forall2 in Ekvs. eapply Forall2_impl; [|exact Ekvs].
  apply roster_binding_view.
Qed.

(** X10: when [_fetch_rosters] returns, the response was a 2xx and the
    result is a dictionary built from the payload's teams in order: each
    team contributes, under the key of its [id], the list of one
    [(playerId, fullName)] pair per roster entry. Its keys are distinct;
    when several teams share an id the roster of the last of them is the
    one kept; when the ids are distinct the result has exactly one entry
    per team, in payload order. *)
Theorem rosters_contents :
  forall FBA_ENDPOINT transport team_id_arg st r st',
    _fetch_rosters FBA_ENDPOINT transport team_id_arg st = (Ok r, st') ->
    exists cw data vt ts kvs d,
      is_2xx (status_code
                (transport (sent st)
                   (rosters_request FBA_ENDPOINT (self st) cw))) /\
      json (transport (sent st) (rosters_request FBA_ENDPOINT (self st) cw))
      = Ok data /\
      reaches data ["teams"] vt /\
      py_iter vt = Ok ts /\
      Forall2 roster_view ts kvs /\
      r = VDict d /\
      NoDup (map fst d) /\
      (forall k, dict_get d k = dict_get (rev kvs) k) /\
      (NoDup (map fst kvs) -> d = kvs).
Proof.
  intros FBA tr arg st r st' H.
  destruct (fetch_rosters_ok_inv _ _ _ _ _ _ H)
    as (m & cw & data & vt & ts & kvs & _ & _ & H2xx & Hj & Hvt & Hts
        & Hkvs & ->).
  exists cw, data, vt, ts, kvs, (dict_of_pairs kvs).
  repeat (split; [assumption|]).
  split; [reflexivity|].
  split; [apply dict_of_pairs_wf|].
  split; [apply dict_of_pairs_get|apply dict_of_pairs_nodup].
Qed.

Lemma rosters_contents_witness :
  let tr := const_transport (mkResponse 200 (Ok sample_rosters_payload)) in
  fst (_fetch_rosters "https://host/" tr None sample_state)
  = Ok (VDict [(KInt 1, VList [VTuple [VInt 11; VStr "B"];
                               VTuple [VInt 12; VStr "C"]]);
               (KInt 2, VList [])]) /\
  exists d,
    fst (_fetch_rosters "https://host/" tr None sample_state) = Ok (VDict d) /\
    NoDup (map fst d).
Proof.
  intros tr. split; [reflexivity|].
  destruct (rosters_contents "https://host/" tr None sample_state _ _ eq_refl)
    as (cw & data & vt & ts & kvs & d & _ & _ & _ & _ & _ & Hr & Hnd & _).
  exists d. split; [|exact Hnd]. rewrite <- Hr. reflexivity.
Defined.

(** ** Extraction: when nothing is recorded, and the team name *)

Lemma appending_loop_all_empty {A B} (f : A -> M (list B)) (l : list A) :
  (forall x, In x l -> forall st, f x st = (Ok [], st)) ->
  forall st, appending_loop f l st = (Ok [], st).
Proof.
  intros H st.
  rewrite (appending_loop_filter f (fun _ => false) l)
    by (intros x Hx _; now apply H).
  rewrite filter_none by reflexivity. reflexivity.
Qed.

Lemma mapM_M_pure {A B} (f : A -> M B) (g : A -> B) (l : list A) :
  (forall x, In x l -> forall st, f x st = (Ok (g x), st)) ->
  forall st, mapM_M f l st = (Ok (map g l), st).
Proof.
  induction l as [|x l IH]; intros H st; simpl; [reflexivity|].
  unfold bind, ret. rewrite (H x (or_introl eq_refl)).
  rewrite IH by (intros y Hy; apply H; now right). reflexivity.
Qed.

Lemma player_records_no_season STATS_INT_TO_STRING _fetch_teams roster p :
  no_season_player p = true ->
  forall st,
    player_records STATS_INT_TO_STRING _fetch_teams roster p st = (Ok [], st).
Proof.
  unfold no_season_player, player_records, bind, lift. intros H st.
  destruct (get_nested p "playerPoolEntry.player.stats"); try discriminate.
  apply andb_prop in H. destruct H as [Hd Hs].
  rewrite forallb_forall in Hd.
  apply negb_true_iff in Hs.
  simpl py_iter. cbv iota. unfold stats_records.
  apply appending_loop_all_empty. intros s Hin st0.
  apply statline_not_season; [now apply Hd|].
  now apply (existsb_false_In _ _ Hs).
Qed.

Lemma team_stats_of_no_season STATS_INT_TO_STRING _fetch_teams roster :
  no_season_roster roster = true ->
  forall st,
    team_stats_of STATS_INT_TO_STRING _fetch_teams roster st = (Ok [], st).
Proof.
  unfold no_season_roster, roster_entries, team_stats_of, bind, lift.
  intros H st.
  destruct (getitem roster (VStr "roster")) as [rr|]; [|discriminate].
  destruct (method_get rr (VStr "entries")) as [es|]; [|discriminate].
  destruct es; try discriminate.
  simpl py_iter. cbv iota. unfold entries_records.
  apply appending_loop_all_empty. intros p Hp st0.
  apply player_records_no_season.
  rewrite forallb_forall in H. now apply H.
Qed.

(** X11: when no player of any roster has a season-total statline (every
    stats list being a list of statline objects of other split types),
    [_fetch_stats] returns one empty list per roster and never calls
    [_fetch_teams]: the result and the state are the same whatever
    [_fetch_teams] would have done. *)
Theorem stats_without_season_lines :
  forall STATS_INT_TO_STRING _fetch_teams st rl,
    rosters (self st) = Some (VList rl) ->
    forallb no_season_roster rl = true ->
    _fetch_stats STATS_INT_TO_STRING _fetch_teams st
    = (Ok (map (fun _ => []) rl), st).
Proof.
  intros tbl ft st rl Hr Hall.
  unfold _fetch_stats, bind, get_self, attr, lift. rewrite Hr.
  unfold ret. simpl py_iter. cbv iota.
  apply mapM_M_pure. intros r Hin st0.
  apply team_stats_of_no_season.
  rewrite forallb_forall in Hall. now apply Hall.
Qed.

Lemma stats_without_season_lines_witness :
  let rl := [sample_roster [sample_player 1; sample_player 3];
             sample_roster []] in
  _fetch_stats sample_stats_table failing_fetch_teams
    (with_rosters (VList rl))
  = (Ok [[]; []], with_rosters (VList rl)).
Proof.
  intros rl.
  apply (stats_without_season_lines sample_stats_table failing_fetch_teams
           (with_rosters (VList rl)) rl eq_refl eq_refl).
Defined.






(** ** Totals over extracted records *)

Lemma method_strip_str (n v : value) :
  method_strip n = Ok v -> exists s, v = VStr s.
Proof. destruct n; simpl; try discriminate. intros [= <-]. eauto. Qed.

Lemma team_name_of_str (teams idx v : value) :
  team_name_of teams idx = Ok v -> exists s, v = VStr s.
Proof.
  unfold team_name_of, rbind.
  destruct (getitem teams (VStr "teams")) as [tl|]; [|discriminate].
  destruct (py_iter tl) as [xs|]; [|discriminate].
  destruct (nicknames idx xs) as [ns|]; [|discriminate].
  destruct (py_index ns 0) as [n0|]; [|discriminate].
  apply method_strip_str.
Qed.

Lemma statline_records_named STATS_INT_TO_STRING _fetch_teams roster
    player s :
  forall st rs st',
    statline_records STATS_INT_TO_STRING _fetch_teams roster player s st
    = (Ok rs, st') ->
    Forall extracted_named rs.
Proof.
  intros st rs st'. unfold statline_records, bind, lift, ret.
  destruct (method_get s (VStr "statSplitTypeId")) as [t|]; [|discriminate].
  destruct (py_eq t (VInt 2)).
  - destruct (method_get s (VStr "stats")) as [tot|]; [|discriminate].
    destruct (method_items tot) as [items|]; [|discriminate].
    destruct (_fetch_teams st) as [[teams|e] st1]; [|discriminate].
    destruct (method_get roster (VStr "id")) as [idx|]; [|discriminate].
    destruct (team_name_of teams idx) as [name|] eqn:En; [|discriminate].
    intros [= <- _]. constructor; [|constructor].
    destruct (team_name_of_str _ _ _ En) as (nm & ->).
    now exists nm, player, (relevant_items STATS_INT_TO_STRING items).
  - intros [= <- _]. constructor.
Qed.

Lemma fetch_stats_named STATS_INT_TO_STRING _fetch_teams st ls st' :
  _fetch_stats STATS_INT_TO_STRING _fetch_teams st = (Ok ls, st') ->
  Forall (Forall extracted_named) ls.
Proof.
  unfold _fetch_stats, bind, get_self, attr, lift.
  destruct (rosters (self st)) as [rs|]; [|discriminate].
  unfold ret. destruct (py_iter rs) as [rl|]; [|discriminate].
  apply mapM_M_Forall. intros roster st0 r st1.
  unfold team_stats_of, bind, lift.
  destruct (getitem roster (VStr "roster")) as [rr|]; [|discriminate].
  destruct (method_get rr (VStr "entries")) as [es|]; [|discriminate].
  destruct (py_iter es) as [ps|]; [|discriminate].
  unfold entries_records. apply appending_loop_Forall.
  intros p st2 rs2 st3. unfold player_records, bind, lift.
  destruct (py_iter _) as [sl|]; [|discriminate].
  unfold stats_records. apply appending_loop_Forall.
  intros x. apply statline_records_named.
Qed.

Lemma stat_totals_of_named (team : list value) (x : value) :
  Forall extracted_named team ->
  stat_totals_of (VList team) = Ok x ->
  totals_named x.
Proof.
  intros Hteam. destruct team as [|d team]; [discriminate|].
  apply Forall_inv in Hteam. destruct Hteam as (s & p & rel & ->).
  unfold stat_totals_of.
  rewrite first_of_nonempty by discriminate. cbn [rbind hd].
  change (method_get (player_metadata (VStr s) p rel) (VStr "teamId"))
    with (@Ok value (VStr s)).
  cbn [rbind].
  repeat match goal with
  | |- context [rbind ?r _] => destruct r; cbn [rbind]; [|discriminate]
  end.
  intros [= <-]. eexists. eexists. reflexivity.
Qed.

Lemma mapM_stat_totals_named (ls : list (list value)) :
  Forall (Forall extracted_named) ls ->
  forall xs, mapM stat_totals_of (map VList ls) = Ok xs ->
             Forall totals_named xs.
Proof.
  induction 1 as [|team ls Hteam _ IH]; simpl; intros xs H.
  - injection H as <-. constructor.
  - destruct (stat_totals_of (VList team)) as [x|] eqn:Ex; [|discriminate].
    simpl in H.
    destruct (mapM stat_totals_of (map VList ls)) as [xs'|]; [|discriminate].
    injection H as <-. constructor.
    + eapply stat_totals_of_named; eassumption.
    + now apply IH.
Qed.

Lemma totals_matching_int (z : Z) (xs : list value) :
  Forall totals_named xs -> totals_matching (VInt z) xs = Ok [].
Proof.
  induction 1 as [|x xs (s & rest & ->) _ IH]; [reflexivity|].
  cbn [totals_matching]. rewrite IH. reflexivity.
Qed.

(** X13: every record [_fetch_stats] produces carries the team's nickname,
    a string, as [teamId], so when its result is assigned to
    [roster_stats], filtering the totals by a non-zero integer [team_id]
    never matches: whenever the computation returns, it returns the empty
    list. *)
Theorem numeric_filter_never_matches :
  forall STATS_INT_TO_STRING _fetch_teams st league_stats st',
    _fetch_stats STATS_INT_TO_STRING _fetch_teams st
    = (Ok league_stats, st') ->
    Forall (Forall extracted_named) league_stats /\
    (forall o z r,
       z <> 0 ->
       let st2 := mkState
                    (set_roster_stats o (VList (map VList league_stats)))
                    (sent st') in
       fst (_calculate_totals (VInt z) st2) = Ok r ->
       r = VList []).
Proof.
  intros tbl ft st ls st' Hrun.
  pose proof (fetch_stats_named _ _ _ _ _ Hrun) as Hnamed.
  split; [exact Hnamed|].
  intros o z r Hz st2.
  rewrite (calculate_totals_run st2 (VList (map VList ls)) (VInt z) eq_refl).
  cbn [fst]. unfold calculate_totals_of. simpl py_iter. cbn [rbind].
  destruct (mapM stat_totals_of (map VList ls)) as [xs|] eqn:Exs;
    [|discriminate].
  cbn [rbind]. simpl truthy.
  destruct (Z.eqb_spec z 0) as [|_]; [contradiction|]. simpl negb. cbv iota.
  rewrite (totals_matching_int z xs (mapM_stat_totals_named ls Hnamed xs Exs)).
  cbn [rbind]. now intros [= <-].
Qed.

Lemma numeric_filter_never_matches_witness :
  let st := with_rosters (VList [sample_roster [sample_player 2]]) in
  exists ls,
    _fetch_stats sample_stats_table sample_fetch_teams st = (Ok ls, st) /\
    fst (_calculate_totals (VInt 1)
           (mkState (set_roster_stats sample_league (VList (map VList ls)))
                    []))
    = Ok (VList []) /\
    fst (_calculate_totals (VStr "Hawks")
           (mkState (set_roster_stats sample_league (VList (map VList ls)))
                    []))
    <> Ok (VList []).
Proof.
  intros st. eexists. split; [reflexivity|].
  split; [|discriminate].
  destruct (numeric_filter_never_matches sample_stats_table
              sample_fetch_teams st _ _ eq_refl) as (_ & H).
  pose proof (H sample_league 1) as H1. cbv zeta in H1.
  erewrite <- H1; [reflexivity|lia|reflexivity].
Defined.

Lemma sum_field_from_app (f : string) (pre l : list value) :
  forall acc,
    forallb (has_int f) pre = true ->
    sum_field_from f acc (pre ++ l)
    = sum_field_from f (acc + field_total f pre) l.
Proof.
  induction pre as [|d pre IH]; intros acc H; simpl.
  - unfold field_total. simpl. f_equal. lia.
  - apply andb_prop in H. destruct H as [Hd Hpre].
    destruct (has_int_value f d Hd) as (st & Hst & Hv).
    rewrite Hst. simpl. rewrite Hv. simpl. rewrite (IH _ Hpre).
    f_equal. unfold field_total. simpl. lia.
Qed.

Lemma stat_records_have_int (f : string) (l : list value) :
  In f stat_fields ->
  forallb stat_record l = true -> forallb (has_int f) l = true.
Proof.
  intros Hf H. rewrite forallb_forall in *. intros d Hd.
  apply stat_record_has_int; auto.
Qed.

Lemma sum_field_with_null (f : string) (pre post : list value)
    (d : value) (s : dict) :
  In f stat_fields ->
  forallb stat_record pre = true ->
  forallb stat_record post = true ->
  getitem d (VStr "stats") = Ok (VDict s) ->
  (items_get s f = VNone ->
   sum_field f (VList (pre ++ d :: post)) = Err TypeError) /\
  (forall z, items_get s f = VInt z ->
             exists total,
               sum_field f (VList (pre ++ d :: post)) = Ok total).
Proof.
  intros Hf Hpre Hpost Hs. unfold sum_field. simpl py_iter. cbn [rbind].
  rewrite (sum_field_from_app f pre _ 0 (stat_records_have_int f pre Hf Hpre)).
  cbn [sum_field_from]. rewrite Hs. cbn [rbind].
  change (method_get (VDict s) (VStr f)) with (@Ok value (items_get s f)).
  cbn [rbind]. split.
  - intros ->. reflexivity.
  - intros z ->. cbn [py_add rbind].
    rewrite (sum_field_from_ok f post _
               (stat_records_have_int f post Hf Hpost)).
    eexists. reflexivity.
Qed.

(** X14: a single record with a null (or absent) stat field makes the
    whole totals computation fail. When the teams before it have only
    player stat records, and so have the other records of its team,
    [_calculate_totals] raises [TypeError] -- [sum] cannot add [None] --
    whatever the filter, and returns no totals for any team. *)
Theorem null_stat_breaks_totals :
  forall st before pre d post after tid,
    roster_stats (self st)
    = Some (VList (map VList (before ++ (pre ++ d :: post) :: after))) ->
    forallb team_ok before = true ->
    forallb stat_record pre = true ->
    forallb stat_record post = true ->
    null_stat_record d = true ->
    _calculate_totals tid st = (Err TypeError, st).
Proof.
  intros st before pre d post after tid Hrs Hbefore Hpre Hpost Hd.
  rewrite (calculate_totals_run st _ tid Hrs).
  unfold calculate_totals_of. simpl py_iter. cbn [rbind].
  rewrite map_app. cbn [map].
  assert (Hteam : stat_totals_of (VList (pre ++ d :: post)) = Err TypeError).
  { unfold null_stat_record in Hd. apply andb_prop in Hd.
    destruct Hd as [Hdict Hd].
    destruct (getitem d (VStr "stats")) as [sv|] eqn:Hs; [|discriminate].
    destruct sv as [| | | | | | |s]; try discriminate.
    apply andb_prop in Hd. destruct Hd as [Hall Hex].
    pose proof (fun f Hf => sum_field_with_null f pre post d s Hf Hpre Hpost Hs)
      as Hsum.
    unfold stat_totals_of.
    rewrite first_of_nonempty by (destruct pre; discriminate).
    cbn [rbind].
    assert (Hfirst : exists t,
               method_get (hd VNone (pre ++ d :: post)) (VStr "teamId") = Ok t).
    { destruct pre as [|p pre]; simpl hd.
      - destruct d; try discriminate. simpl. eauto.
      - simpl in Hpre. apply andb_prop in Hpre. destruct Hpre as [Hp _].
        unfold stat_record in Hp. apply andb_prop in Hp. destruct Hp as [Hp _].
        destruct p; try discriminate. simpl. eauto. }
    destruct Hfirst as (t & ->). cbn [rbind].
    simpl in Hall, Hex. unfold int_or_absent, is_none in Hall, Hex.
    destruct (Hsum "points") as [Hn1 Hi1]; [simpl; tauto|].
    destruct (Hsum "blocks") as [Hn2 Hi2]; [simpl; tauto|].
    destruct (Hsum "steals") as [Hn3 Hi3]; [simpl; tauto|].
    destruct (Hsum "assists") as [Hn4 Hi4]; [simpl; tauto|].
    destruct (Hsum "rebounds") as [Hn5 Hi5]; [simpl; tauto|].
    destruct (items_get s "points") as [| | |z1| | | |] eqn:E1;
      simpl in Hall, Hex; try discriminate Hall;
      [rewrite (Hn1 eq_refl); reflexivity
      |destruct (Hi1 z1 eq_refl) as (t1 & ->); cbn [rbind]].
    destruct (items_get s "blocks") as [| | |z2| | | |] eqn:E2;
      simpl in Hall, Hex; try discriminate Hall;
      [rewrite (Hn2 eq_refl); reflexivity
      |destruct (Hi2 z2 eq_refl) as (t2 & ->); cbn [rbind]].
    destruct (items_get s "steals") as [| | |z3| | | |] eqn:E3;
      simpl in Hall, Hex; try discriminate Hall;
      [rewrite (Hn3 eq_refl); reflexivity
      |destruct (Hi3 z3 eq_refl) as (t3 & ->); cbn [rbind]].
    destruct (items_get s "assists") as [| | |z4| | | |] eqn:E4;
      simpl in Hall, Hex; try discriminate Hall;
      [rewrite (Hn4 eq_refl); reflexivity
      |destruct (Hi4 z4 eq_refl) as (t4 & ->); cbn [rbind]].
    destruct (items_get s "rebounds") as [| | |z5| | | |] eqn:E5;
      simpl in Hall, Hex; try discriminate Hall;
      [rewrite (Hn5 eq_refl); reflexivity|discriminate Hex]. }
  rewrite (mapM_app_err stat_totals_of _ _ _ _ _
             (mapM_stat_totals_ok before Hbefore) Hteam).
  reflexivity.
Qed.

Lemma null_stat_breaks_totals_witness :
  let a := sample_record "A" 10 1 0 2 4 in
  let st := with_roster_stats
              (VList [VList [a]; VList [a; sample_null_record "B"; a]]) in
  _calculate_totals (VStr "A") st = (Err TypeError, st).
Proof.
  intros a st.
  apply (null_stat_breaks_totals st [[a]] [a] (sample_null_record "B") [a]
           [] (VStr "A") eq_refl eq_refl eq_refl eq_refl eq_refl).
Defined.

(** ** The printed form of a league *)

Lemma str_of_Z_inj (a b : Z) : str_of_Z a = str_of_Z b -> a = b.
Proof.
  unfold str_of_Z. intros H. apply DecimalZ.to_int_inj.
  assert (Hnn : forall z, Z.to_int z <> Decimal.Pos Decimal.Nil /\
                          Z.to_int z <> Decimal.Neg Decimal.Nil).
  { intros [|p|p]; simpl; split; try discriminate;
      intros [= Hp]; exact (DecimalPos.Unsigned.to_uint_nonnil p Hp). }
  assert (Hparse : forall z,
            NilZero.int_of_string (NilZero.string_of_int (Z.to_int z))
            = Some (Z.to_int z)).
  { intros z. apply NilZero.isi; apply Hnn. }
  pose proof (Hparse a) as Ha. rewrite H, Hparse in Ha. congruence.
Qed.

Lemma absent_uint (c : ascii) (d : Decimal.uint) :
  absent c "0123456789" ->
  absent c (NilEmpty.string_of_uint d).
Proof.
  simpl. intros H. induction d; simpl; intuition.
Qed.

Lemma absent_str_of_Z (c : ascii) (z : Z) :
  absent c "-0123456789" -> absent c (str_of_Z z).
Proof.
  intros [Hm Hd]. unfold str_of_Z.
  destruct (Z.to_int z) as [d|d]; simpl.
  - destruct d; try (now apply (absent_uint c _ Hd)).
    simpl. simpl in Hd. tauto.
  - split; [exact Hm|].
    destruct d; try (now apply (absent_uint c _ Hd)).
    simpl. simpl in Hd. tauto.
Qed.

Lemma append_split_at (c : ascii) (a a' r r' : string) :
  absent c a -> absent c a' ->
  (a ++ String c r = a' ++ String c r')%string ->
  a = a' /\ r = r'.
Proof.
  revert a'. induction a as [|x a IH]; intros [|x' a'] Ha Ha' H; simpl in *.
  - injection H as <-. auto.
  - injection H as Hx _. destruct Ha' as [Hne _]. congruence.
  - injection H as Hx _. destruct Ha as [Hne _]. congruence.
  - injection H as -> H. destruct Ha as [_ Ha]. destruct Ha' as [_ Ha'].
    destruct (IH a' Ha Ha' H) as [-> ->]. auto.
Qed.

(** X15: the printed form of a league, [<League `id` year>], shows the
    league id and the year and nothing else: two objects print alike
    exactly when they have the same [league_id] and the same [year],
    whatever their cookies, team id or fetched data. *)
Theorem repr_identifies_league :
  forall o1 o2,
    __repr__ o1 = __repr__ o2 <->
    league_id o1 = league_id o2 /\ year o1 = year o2.
Proof.
  intros o1 o2. unfold __repr__. split.
  - intros H. simpl in H. injection H as H.
    assert (Hb : forall z, absent "`" (str_of_Z z)).
    { intros z. apply absent_str_of_Z. simpl.
      repeat split; discriminate. }
    assert (Hg : forall z, absent ">" (str_of_Z z)).
    { intros z. apply absent_str_of_Z. simpl.
      repeat split; discriminate. }
    apply (append_split_at "`" _ _ _ _ (Hb _) (Hb _)) in H.
    destruct H as [Hid H]. simpl in H. injection H as H.
    apply (append_split_at ">" _ _ _ _ (Hg _) (Hg _)) in H.
    destruct H as [Hyr _].
    split; now apply str_of_Z_inj.
  - intros [-> ->]. reflexivity.
Qed.

Lemma repr_identifies_league_witness :
  __repr__ sample_league = "<League `42` 2020>" /\
  __repr__ (init_object VNone 42 2020 9) = __repr__ sample_league.
Proof.
  split; [reflexivity|].
  apply (proj2 (repr_identifies_league (init_object VNone 42 2020 9)
                  sample_league)).
  split; reflexivity.
Defined.

(** ** How many records, and what the extraction does to the state *)

Lemma statline_records_length STATS_INT_TO_STRING _fetch_teams roster
    player s :
  forall st rs st',
    statline_records STATS_INT_TO_STRING _fetch_teams roster player s st
    = (Ok rs, st') ->
    List.length rs = if is_season s then 1%nat else 0%nat.
Proof.
  intros st rs st'. unfold statline_records, is_season, bind, lift, ret.
  destruct (method_get s (VStr "statSplitTypeId")) as [t|]; [|discriminate].
  destruct (py_eq t (VInt 2)).
  - destruct (method_get s (VStr "stats")) as [tot|]; [|discriminate].
    destruct (method_items tot) as [items|]; [|discriminate].
    destruct (_fetch_teams st) as [[teams|e] st1]; [|discriminate].
    destruct (method_get roster (VStr "id")) as [idx|]; [|discriminate].
    destruct (team_name_of teams idx) as [name|]; [|discriminate].
    intros [= <- _]. reflexivity.
  - intros [= <- _]. reflexivity.
Qed.

Lemma appending_loop_length {A B} (f : A -> M (list B)) (cnt : A -> nat)
    (l : list A) :
  (forall x st rs st', f x st = (Ok rs, st') -> List.length rs = cnt x) ->
  forall st rs st',
    appending_loop f l st = (Ok rs, st') ->
    List.length rs = list_sum (map cnt l).
Proof.
  intros Hf. induction l as [|x l IH]; intros st rs st' H.
  - rewrite appending_loop_nil in H. injection H as <- _. reflexivity.
  - rewrite appending_loop_cons in H.
    destruct (f x st) as [[ys|e] st1] eqn:E1; [|discriminate].
    destruct (appending_loop f l st1) as [[zs|e] st2] eqn:E2; [|discriminate].
    injection H as <- _. rewrite length_app. simpl.
    rewrite (Hf _ _ _ _ E1), (IH _ _ _ E2). reflexivity.
Qed.

Lemma count_season (sl : list value) :
  list_sum (map (fun s => if is_season s then 1%nat else 0%nat) sl)
  = List.length (filter is_season sl).
Proof.
  induction sl as [|s sl IH]; simpl; [reflexivity|].
  destruct (is_season s); simpl; now rewrite IH.
Qed.

Lemma player_records_length STATS_INT_TO_STRING _fetch_teams roster p :
  forall st rs st',
    player_records STATS_INT_TO_STRING _fetch_teams roster p st
    = (Ok rs, st') ->
    List.length rs = season_count p.
Proof.
  intros st rs st'. unfold player_records, season_count, bind, lift.
  destruct (py_iter _) as [sl|]; [|discriminate].
  unfold stats_records. intros H.
  rewrite <- count_season.
  eapply appending_loop_length; [|exact H].
  intros x. apply statline_records_length.
Qed.

Lemma team_stats_of_counted STATS_INT_TO_STRING _fetch_teams roster :
  forall st rs st',
    team_stats_of STATS_INT_TO_STRING _fetch_teams roster st = (Ok rs, st') ->
    counted_team roster rs.
Proof.
  intros st rs st'. unfold team_stats_of, counted_team, bind, lift.
  destruct (getitem roster (VStr "roster")) as [r|] eqn:Er; [|discriminate].
  destruct (method_get r (VStr "entries")) as [es|] eqn:Ees; [|discriminate].
  destruct (py_iter es) as [ps|] eqn:Eps; [|discriminate].
  unfold entries_records. intros H. exists r, es, ps.
  split; [reflexivity|]. split; [exact Ees|]. split; [exact Eps|].
  eapply appending_loop_length; [|exact H].
  intros x. apply player_records_length.
Qed.

Lemma mapM_M_Forall2 {A B} (R : A -> B -> Prop) (f : A -> M B) (l : list A) :
  (forall x st y st', f x st = (Ok y, st') -> R x y) ->
  forall st ys st', mapM_M f l st = (Ok ys, st') -> Forall2 R l ys.
Proof.
  intros Hf. induction l as [|x l IH]; intros st ys st' H; simpl in H.
  - injection H as <- _. constructor.
  - unfold bind, ret in H.
    destruct (f x st) as [[y|e] st1] eqn:E1; [|discriminate].
    destruct (mapM_M f l st1) as [[ys'|e] st2] eqn:E2; [|discriminate].
    injection H as <- _. constructor.
    + eapply Hf; eassumption.
    + eapply IH; eassumption.
Qed.

(** X16: when [_fetch_stats] returns, its result has one list per roster,
    in order, and the list of a roster has exactly one record per
    season-total statline of its players: a player with no such statline
    has none, a player with two has two. *)
Theorem one_record_per_season_statline :
  forall STATS_INT_TO_STRING _fetch_teams st league_stats st',
    _fetch_stats STATS_INT_TO_STRING _fetch_teams st
    = (Ok league_stats, st') ->
    exists rs rl,
      rosters (self st) = Some rs /\
      py_iter rs = Ok rl /\
      Forall2 counted_team rl league_stats.
Proof.
  intros tbl ft st ls st'.
  unfold _fetch_stats, bind, get_self, attr, lift.
  destruct (rosters (self st)) as [rs|]; [|discriminate].
  unfold ret. destruct (py_iter rs) as [rl|] eqn:Erl; [|discriminate].
  intros H. exists rs, rl. split; [reflexivity|]. split; [exact Erl|].
  eapply mapM_M_Forall2; [|exact H].
  intros roster st0 y st1. apply team_stats_of_counted.
Qed.

Lemma one_record_per_season_statline_witness :
  let roster := sample_roster [sample_double_player; sample_player 1] in
  let st := with_rosters (VList [roster]) in
  exists r1 r2,
    fst (_fetch_stats sample_stats_table sample_fetch_teams st)
    = Ok [[r1; r2]] /\
    counted_team roster [r1; r2].
Proof.
  intros roster st. eexists. eexists. split; [reflexivity|].
  destruct (one_record_per_season_statline sample_stats_table
              sample_fetch_teams st _ _ eq_refl)
    as (rs & rl & Hrs & Hrl & Hall).
  injection Hrs as <-. injection Hrl as <-.
  apply Forall2_cons_iff in Hall. apply Hall.
Defined.

Lemma appending_loop_invariant {A B} (P : state -> Prop)
    (f : A -> M (list B)) (l : list A) :
  (forall x st, P st -> P (snd (f x st))) ->
  forall st, P st -> P (snd (appending_loop f l st)).
Proof.
  intros Hf. induction l as [|x l IH]; intros st HP.
  - exact HP.
  - rewrite appending_loop_cons.
    pose proof (Hf x st HP) as H1.
    destruct (f x st) as [[ys|e] st1]; simpl in H1; [|exact H1].
    pose proof (IH st1 H1) as H2.
    destruct (appending_loop f l st1) as [[zs|e] st2]; exact H2.
Qed.

Lemma mapM_M_invariant {A B} (P : state -> Prop) (f : A -> M B)
    (l : list A) :
  (forall x st, P st -> P (snd (f x st))) ->
  forall st, P st -> P (snd (mapM_M f l st)).
Proof.
  intros Hf. induction l as [|x l IH]; intros st HP; simpl.
  - exact HP.
  - unfold bind, ret.
    pose proof (Hf x st HP) as H1.
    destruct (f x st) as [[y|e] st1]; simpl in H1; [|exact H1].
    pose proof (IH st1 H1) as H2.
    destruct (mapM_M f l st1) as [[ys|e] st2]; exact H2.
Qed.

Lemma statline_records_invariant STATS_INT_TO_STRING _fetch_teams
    (P : state -> Prop) roster player s :
  (forall st, P st -> P (snd (_fetch_teams st))) ->
  forall st, P st ->
    P (snd (statline_records STATS_INT_TO_STRING _fetch_teams roster player
              s st)).
Proof.
  intros Hft st HP. unfold statline_records, bind, lift, ret.
  destruct (method_get s (VStr "statSplitTypeId")) as [t|]; [|exact HP].
  destruct (py_eq t (VInt 2)); [|exact HP].
  destruct (method_get s (VStr "stats")) as [tot|]; [|exact HP].
  destruct (method_items tot) as [items|]; [|exact HP].
  pose proof (Hft st HP) as H1.
  destruct (_fetch_teams st) as [[teams|e] st1]; simpl in H1; [|exact H1].
  destruct (method_get roster (VStr "id")) as [idx|]; [|exact H1].
  destruct (team_name_of teams idx); exact H1.
Qed.

(** X17: [_calculate_totals] never changes the object or the requests
    sent, and [_fetch_stats] touches them only through [_fetch_teams]:
    whatever [_fetch_teams] preserves of the state (the object, the
    requests sent, or both), [_fetch_stats] preserves too, on every
    outcome. *)
Theorem stats_and_totals_keep_state :
  forall STATS_INT_TO_STRING _fetch_teams (P : state -> Prop),
    (forall tid st, snd (_calculate_totals tid st) = st) /\
    ((forall st, P st -> P (snd (_fetch_teams st))) ->
     forall st, P st ->
       P (snd (_fetch_stats STATS_INT_TO_STRING _fetch_teams st))).
Proof.
  intros tbl ft P. split.
  - intros tid st. unfold _calculate_totals, bind, get_self, attr, lift.
    destruct (roster_stats (self st)); reflexivity.
  - intros Hft st HP.
    unfold _fetch_stats, bind, get_self, attr, lift.
    destruct (rosters (self st)) as [rs|]; [|exact HP].
    unfold ret. destruct (py_iter rs) as [rl|]; [|exact HP].
    apply mapM_M_invariant; [|exact HP].
    intros roster st0 HP0. unfold team_stats_of, bind, lift.
    destruct (getitem roster (VStr "roster")) as [r|]; [|exact HP0].
    destruct (method_get r (VStr "entries")) as [es|]; [|exact HP0].
    destruct (py_iter es) as [ps|]; [|exact HP0].
    unfold entries_records. apply appending_loop_invariant; [|exact HP0].
    intros p st1 HP1. unfold player_records, bind, lift.
    destruct (py_iter _) as [sl|]; [|exact HP1].
    unfold stats_records. apply appending_loop_invariant; [|exact HP1].
    intros s st2 HP2. now apply statline_records_invariant.
Qed.

Lemma stats_and_totals_keep_state_witness :
  let st := with_rosters (VList [sample_roster [sample_player 2]]) in
  self (snd (_fetch_stats sample_stats_table failing_fetch_teams st))
  = self st.
Proof.
  intros st.
  destruct (stats_and_totals_keep_state sample_stats_table
              failing_fetch_teams (fun s => self s = self st)) as (_ & H).
  apply H; [|reflexivity].
  intros s Hs. exact Hs.
Defined.
